(** * MeetingVirtualBackground: session state, background store,
      mask processing, compositing and the streaming generator.

    A shallow embedding of [MeetingVirtualBackground.py].  Arrays are nested
    lists (rows, then pixels, then channels); the module-level globals
    are one record that every handler receives and returns; the calls into
    OpenCV, MediaPipe and the Python runtime that the module does not
    define are either parameters of a section or small documented models. *)

From Stdlib Require Import ZArith QArith Qminmax Qround Lia Ascii String.
From stdpp Require Import base option list strings gmap pretty.

Local Open Scope Z_scope.

(** ** Data *)

(** A frame is a [height x width x 3] array of bytes, a segmentation mask a
    [height x width] array of probabilities.  Probabilities are kept as exact
    rationals: erosion and thresholding only compare them. *)
Abbreviation bgr_image := (list (list (list Z))).
Abbreviation mask := (list (list Q)).
Abbreviation condition := (list (list (list bool))).

(** Exceptions that the modelled code paths can raise. *)
Inductive exn :=
  | ValueError
  | IndexError
  | AttributeError
  | OSError
  | CvError.

Inductive result (A : Type) :=
  | Ok (a : A)
  | Raise (e : exn).
Arguments Ok {A} a.
Arguments Raise {A} e.

(** The module's globals.  An entry of [background_images] is [None] when
    [cv2.imread] returned Python's [None]. *)
Record globals := Globals {
  selected_bg_index : Z;
  apply_blur : bool;
  background_images : list (option bgr_image)
}.

Definition NUM_BACKGROUNDS : nat := 6.
Definition BLUR_KERNEL_SIZE : nat * nat := (55%nat, 55%nat).

(** Rounding to a binary floating-point format with a significand of [p]
    bits, to nearest and ties to even; exponent range left aside (every value
    rounded here lies in the normal range of its format). *)
Definition round_half_even (q : Q) : Z :=
  let f := Qfloor q in
  match Qcompare (Qminus q (inject_Z f)) (1 # 2) with
  | Lt => f
  | Gt => f + 1
  | Eq => if Z.even f then f else f + 1
  end.

(** For [q > 0], the [e] with [2^e <= q < 2^(e+1)]. *)
Definition binade (q : Q) : Z :=
  let e0 := Z.log2 (Qnum q) - Z.log2 (Zpos (Qden q)) in
  if Qle_bool (Qpower (2 # 1) e0) q then e0 else e0 - 1.

Definition round_binary (p : Z) (q : Q) : Q :=
  let magnitude (q : Q) : Q :=
    let s := p - 1 - binade q in
    Qmult (inject_Z (round_half_even (Qmult q (Qpower (2 # 1) s))))
          (Qpower (2 # 1) (- s)) in
  match Qnum q with
  | Z0 => 0 # 1
  | Zpos _ => magnitude q
  | Zneg _ => Qopp (magnitude (Qopp q))
  end.

Definition float64 : Q -> Q := round_binary 53.
Definition float32 : Q -> Q := round_binary 24.
Arguments round_binary : simpl never.
Arguments float64 : simpl never.
Arguments float32 : simpl never.

(** The literal [0.1] is a Python float, a binary64 number. *)
Definition SEGMENTATION_THRESHOLD : Q := float64 (1 # 10).
Definition BACKGROUND_FOLDER : string := "static/backgrounds".

Definition len {A} (l : list A) : Z := Z.of_nat (length l).

(** ** HTTP responses *)

Inductive json_value :=
  | JStr (s : string)
  | JInt (n : Z)
  | JBool (b : bool).

Inductive response :=
  | Json (body : list (string * json_value)) (status : Z)
  | Rendered (template : string).

(** ** Python's [int(str)], ASCII part

    Surrounding white space (tab, line feed, vertical tab, form feed, carriage
    return, space) is dropped, one sign is allowed, the digits may be grouped
    by single underscores, and more than 4300 digits are refused. *)
Definition is_space (c : ascii) : bool :=
  let n := Z.of_nat (nat_of_ascii c) in
  ((9 <=? n) && (n <=? 13)) || (n =? 32).

Definition digit_of (c : ascii) : option Z :=
  let n := Z.of_nat (nat_of_ascii c) in
  if (48 <=? n) && (n <=? 57) then Some (n - 48) else None.

Fixpoint parse_digits (acc : Z) (after_digit : bool) (cs : list ascii) : option Z :=
  match cs with
  | [] => if after_digit then Some acc else None
  | c :: cs' =>
      match digit_of c with
      | Some d => parse_digits (10 * acc + d) true cs'
      | None =>
          if (Ascii.eqb c "_"%char) && after_digit
          then parse_digits acc false cs'
          else None
      end
  end.

Fixpoint lstrip (cs : list ascii) : list ascii :=
  match cs with
  | c :: cs' => if is_space c then lstrip cs' else cs
  | [] => []
  end.

Definition strip (cs : list ascii) : list ascii :=
  reverse (lstrip (reverse (lstrip cs))).

Definition count_digits (cs : list ascii) : nat :=
  length (List.filter (fun c => match digit_of c with Some _ => true | None => false end) cs).

Definition py_int (s : string) : option Z :=
  let cs := strip (list_ascii_of_string s) in
  if (4300 <? count_digits cs)%nat then None
  else
    match cs with
    | "-"%char :: ds => Z.opp <$> parse_digits 0 false ds
    | "+"%char :: ds => parse_digits 0 false ds
    | ds => parse_digits 0 false ds
    end.

(** ** Session state: the three control handlers *)

Section SessionState.
(** [int] is the built-in conversion: [None] stands for [ValueError]. *)
Variable int : string -> option Z.

Definition index (g : globals) : globals * response :=
  (Globals (-1) false (background_images g), Rendered "index.html").

Definition set_background (bg_index : string) (g : globals) : globals * response :=
  match int bg_index with
  | None =>
      (g, Json [("status", JStr "error"); ("message", JStr "Invalid index format")] 400)
  | Some bg_index =>
      if (bg_index =? -1) || ((0 <=? bg_index) && (bg_index <? len (background_images g)))
      then (Globals bg_index (apply_blur g) (background_images g),
            Json [("status", JStr "success"); ("selected_index", JInt bg_index)] 200)
      else (g, Json [("status", JStr "error"); ("message", JStr "Invalid index")] 400)
  end.

(** The route converter [<int:state>] hands over a non-negative integer;
    [bool(state)] is [state != 0]. *)
Definition toggle_blur (state : Z) (g : globals) : globals * response :=
  let blur := negb (state =? 0) in
  (Globals (selected_bg_index g) blur (background_images g),
   Json [("status", JStr "success"); ("blur_enabled", JBool blur)] 200).

Inductive request :=
  | GetIndex
  | GetSetBackground (bg_index : string)
  | GetToggleBlur (state : Z).

Definition handle (r : request) (g : globals) : globals * response :=
  match r with
  | GetIndex => index g
  | GetSetBackground s => set_background s g
  | GetToggleBlur st => toggle_blur st g
  end.

(** The states the process goes through while it serves [rs] in order,
    the starting state first. *)
Fixpoint states (rs : list request) (g : globals) : list globals :=
  match rs with
  | [] => [g]
  | r :: rs' => g :: states rs' (fst (handle r g))
  end.
End SessionState.

(** [selected_bg_index] is [-1] or a position of [background_images]. *)
Definition index_ok (g : globals) : Prop :=
  selected_bg_index g = -1 \/ 0 <= selected_bg_index g < len (background_images g).

(** What the module-level assignments leave before [load_backgrounds] runs. *)
Definition module_globals : globals := Globals (-1) false [].

(** ** Background store *)

(** The part of the file system the module looks at.  A file is kept as
    what [cv2.imread] makes of it: [Some] image when it decodes, [None] when
    it does not. *)
Inductive entry :=
  | Directory
  | File (decoded : option bgr_image).

Abbreviation filesystem := (gmap string entry).

Definition path_exists (fs : filesystem) (p : string) : bool :=
  bool_decide (is_Some (fs !! p)).

(** [os.makedirs(BACKGROUND_FOLDER)].  It raises an [OSError] when the
    folder's name is taken, when its parent [static] is a regular file, and
    when the operating system does not let the process create directories
    there ([may_create] false); otherwise the folder and its parent are there
    afterwards. *)
Definition makedirs (may_create : bool) (fs : filesystem) : result filesystem :=
  if path_exists fs BACKGROUND_FOLDER then Raise OSError
  else
    match fs !! "static" with
    | Some (File _) => Raise OSError
    | _ =>
        if may_create
        then Ok (<[BACKGROUND_FOLDER := Directory]> (<["static" := Directory]> fs))
        else Raise OSError
    end.

(** [cv2.imread] yields [None] for anything it cannot read or decode. *)
Definition imread (fs : filesystem) (p : string) : option bgr_image :=
  match fs !! p with
  | Some (File decoded) => decoded
  | _ => None
  end.

Definition img_path (i : nat) : string :=
  BACKGROUND_FOLDER +:+ "/" +:+ pretty i +:+ ".png".

Definition np_zeros (h w c : nat) : bgr_image := replicate h (replicate w (replicate c 0)).

Definition FONT_HERSHEY_PLAIN : Z := 1.

Section BackgroundStore.
(** [cv2.putText img text org fontFace fontScale color thickness]. *)
Variable putText : bgr_image -> string -> Z * Z -> Z -> Z -> Z * Z * Z -> Z -> bgr_image.
(** Whether the operating system lets the process create directories. *)
Variable may_create : bool.

Definition create_placeholder_background (bg_number : nat) : bgr_image :=
  let placeholder := np_zeros 480 640 3 in
  let placeholder :=
    foldl (fun (placeholder : bgr_image) (y : nat) =>
             let r := 255 * Z.of_nat y / 480 in
             let g := 255 * (480 - Z.of_nat y) / 480 in
             let b := 128 in
             <[y := replicate 640 [b; g; r]]> placeholder)
          placeholder (seq 0 480) in
  putText placeholder ("BG " +:+ pretty bg_number) (250, 250)
          FONT_HERSHEY_PLAIN 2 (255, 255, 255) 2.

Definition load_slot (fs : filesystem) (i : nat) : option bgr_image :=
  if path_exists fs (img_path i)
  then imread fs (img_path i)
  else Some (create_placeholder_background i).

(** The rest of [load_backgrounds] once the folder is there. *)
Definition load_images (fs : filesystem) (g : globals) : globals :=
  let background_images :=
    foldl (fun acc i => acc ++ [load_slot fs i]) [] (seq 1 NUM_BACKGROUNDS) in
  Globals (selected_bg_index g) (apply_blur g) background_images.

Definition load_backgrounds (fs : filesystem) (g : globals)
    : result (filesystem * globals) :=
  if path_exists fs BACKGROUND_FOLDER then Ok (fs, load_images fs g)
  else
    match makedirs may_create fs with
    | Raise e => Raise e
    | Ok fs => Ok (fs, load_images fs g)
    end.
End BackgroundStore.

(** ** Mask processor *)

Definition lookupZ {A} (l : list A) (i : Z) : option A :=
  if i <? 0 then None else l !! Z.to_nat i.

Definition at2 {A} (m : list (list A)) (y x : Z) : option A :=
  match lookupZ m y with
  | Some row => lookupZ row x
  | None => None
  end.

Definition np_ones (h w : nat) : list (list Z) := replicate h (replicate w 1).

(** The values [cv2.erode] takes the minimum of at [(y, x)]: those under the
    nonzero entries of the structuring element, anchored at its centre.
    Positions outside the array carry the default border value, the largest
    representable number, which never lowers a minimum: they are left out. *)
Definition window (m : mask) (kernel : list (list Z)) (y x : nat) : list Q :=
  let ay := len kernel / 2 in
  let ax := len (hd [] kernel) / 2 in
  concat (imap (fun ky krow =>
    concat (imap (fun kx k =>
      if k =? 0 then []
      else option_list (at2 m (Z.of_nat y + Z.of_nat ky - ay)
                              (Z.of_nat x + Z.of_nat kx - ax))) krow)) kernel).

Definition erode_at (m : mask) (kernel : list (list Z)) (y x : nat) (v : Q) : Q :=
  match window m kernel y x with
  | [] => v
  | w :: ws => foldr Qmin w ws
  end.

Definition erode_once (kernel : list (list Z)) (m : mask) : mask :=
  imap (fun y row => imap (fun x v => erode_at m kernel y x v) row) m.

Definition erode (m : mask) (kernel : list (list Z)) (iterations : nat) : mask :=
  Nat.iter iterations (erode_once kernel) m.

(** [np.stack((mask,) * 3, axis=-1)]. *)
Definition np_stack3 {A} (m : list (list A)) : list (list (list A)) :=
  fmap (M := list) (fmap (M := list) (fun v : A => [v; v; v])) m.

(** [array > threshold], elementwise, for a [float32] array and a Python
    float: NumPy casts the scalar to the array's type and compares there. *)
Definition gt (a : list (list (list Q))) (threshold : Q) : condition :=
  let threshold := float32 threshold in
  fmap (M := list) (fmap (M := list) (fmap (M := list)
    (fun v : Q => negb (Qle_bool v threshold)))) a.

Definition mask_condition (m : mask) : condition :=
  let kernel := np_ones 7 7 in
  let m := erode m kernel 1 in
  gt (np_stack3 m) SEGMENTATION_THRESHOLD.

(** ** Compositor *)

Definition zip3_with {A B C D} (f : A -> B -> C -> D)
    (l1 : list A) (l2 : list B) (l3 : list C) : list D :=
  zip_with (fun a bc => f a (fst bc) (snd bc)) l1 (zip l2 l3).

(** [np.where(condition, x, y)] on arrays of one shape. *)
Definition np_where (c : condition) (x y : bgr_image) : bgr_image :=
  zip3_with (zip3_with (zip3_with (fun (b : bool) (u v : Z) => if b then u else v))) c x y.

(** Python's list subscript: negative positions count from the end. *)
Definition py_index {A} (l : list A) (i : Z) : result A :=
  let j := if i <? 0 then i + len l else i in
  match lookupZ l j with
  | Some a => Ok a
  | None => Raise IndexError
  end.

Record segmentation_results := SegmentationResults {
  segmentation_mask : mask
}.

Definition shape0 (img : bgr_image) : nat := length img.
Definition shape1 (img : bgr_image) : nat := length (hd [] img).

Section Compositor.
(** [cv2.resize src (width, height)] and [cv2.GaussianBlur src ksize sigmaX]. *)
Variable resize : bgr_image -> nat * nat -> bgr_image.
Variable GaussianBlur : bgr_image -> nat * nat -> Z -> bgr_image.

Definition apply_effects (g : globals) (image : bgr_image)
    (results : segmentation_results) : result bgr_image :=
  let mask := segmentation_mask results in
  let kernel := np_ones 7 7 in
  let mask := erode mask kernel 1 in
  let condition := gt (np_stack3 mask) SEGMENTATION_THRESHOLD in
  if (selected_bg_index g >=? 0) && (selected_bg_index g <? len (background_images g))
  then
    match py_index (background_images g) (selected_bg_index g) with
    | Raise e => Raise e
    | Ok None => Raise AttributeError
    | Ok (Some bg_image) =>
        let bg_image := resize bg_image (shape1 image, shape0 image) in
        let bg_image :=
          if apply_blur g then GaussianBlur bg_image BLUR_KERNEL_SIZE 0 else bg_image in
        Ok (np_where condition image bg_image)
    end
  else
    if apply_blur g
    then
      let blurred_image := GaussianBlur image BLUR_KERNEL_SIZE 0 in
      Ok (np_where condition image blurred_image)
    else Ok image.

(** What the two branches without a background give. *)
Definition no_background (g : globals) (image : bgr_image)
    (results : segmentation_results) : bgr_image :=
  if apply_blur g
  then np_where (mask_condition (segmentation_mask results)) image
                (GaussianBlur image (55%nat, 55%nat) 0)
  else image.
End Compositor.

(** ** Frame pipeline: the generator [gen_frames] *)

(** [cv2.flip image 1] mirrors every row; the two colour conversions used
    here both reverse the channel order. *)
Definition flip (image : bgr_image) (flipCode : Z) : bgr_image :=
  if flipCode >? 0 then map (@reverse _) image
  else if flipCode =? 0 then reverse image
  else reverse (map (@reverse _) image).

Inductive color_code :=
  | COLOR_BGR2RGB
  | COLOR_RGB2BGR.

Definition cvtColor (image : bgr_image) (code : color_code) : bgr_image :=
  map (map (@reverse _)) image.

(** What the consumer of the generator does while it is suspended at the
    [yield]: ask for the next chunk, or close it (the client went away). *)
Inductive consumer :=
  | Next
  | Close.

(** What the outside world does during one turn of the [while] loop: the
    answers of the camera, the globals as the control handlers left them, the
    segmentation model, the encoder (its status flag and its buffer, or an
    exception), and the consumer. *)
(** The second component of what [cv2.imencode] returns: an array of
    bytes, or the empty tuple the binding hands back in its place when the
    encoder reports failure through its flag. *)
Inductive py_buffer :=
  | NdArray (bytes : string)
  | EmptyTuple.

(** [buffer.tobytes()]: a tuple has no such method. *)
Definition tobytes (buffer : py_buffer) : result string :=
  match buffer with
  | NdArray bytes => Ok bytes
  | EmptyTuple => Raise AttributeError
  end.

Record iteration := Iteration {
  isOpened : bool;
  read : option bgr_image;
  session : globals;
  process : bgr_image -> result segmentation_results;
  imencode : string -> bgr_image -> result (bool * py_buffer);
  consumer_step : consumer
}.

Inductive event :=
  | VideoCapture (device : Z)
  | SegmentationEnter
  | SegmentationExit
  | Printed (s : string)
  | Yielded (chunk : string)
  | CapRelease.

(** How a block of the generator ends. *)
Inductive completion :=
  | Normal
  | Exception (e : exn)
  | GeneratorExit.

Definition CRLF : string := String (ascii_of_nat 13) (String (ascii_of_nat 10) EmptyString).

Definition multipart (frame : string) : string :=
  "--frame" +:+ CRLF +:+ "Content-Type: image/jpeg" +:+ CRLF +:+ CRLF +:+ frame +:+ CRLF.

Definition emit (e : event) (r : option (list event * completion))
    : option (list event * completion) :=
  match r with
  | Some (evs, c) => Some (e :: evs, c)
  | None => None
  end.

Section Pipeline.
Variable resize : bgr_image -> nat * nat -> bgr_image.
Variable GaussianBlur : bgr_image -> nat * nat -> Z -> bgr_image.

(** The [while cap.isOpened()] loop.  [None]: the script ended while the
    generator was still alive.  The frame-rate bookkeeping has no effect on
    what is yielded and is left out. *)
Fixpoint while_loop (script : list iteration) : option (list event * completion) :=
  match script with
  | [] => None
  | it :: script' =>
      if negb (isOpened it) then Some ([], Normal)
      else
        match read it with
        | None => Some ([Printed "Warning: Empty camera frame received"], Normal)
        | Some image =>
            let image := cvtColor (flip image 1) COLOR_BGR2RGB in
            match process it image with
            | Raise e => Some ([], Exception e)
            | Ok results =>
                let image := cvtColor image COLOR_RGB2BGR in
                match apply_effects resize GaussianBlur (session it) image results with
                | Raise e => Some ([], Exception e)
                | Ok output_image =>
                    match imencode it ".jpg" output_image with
                    | Raise e => Some ([], Exception e)
                    | Ok (ret, buffer) =>
                        match tobytes buffer with
                        | Raise e => Some ([], Exception e)
                        | Ok frame =>
                            match consumer_step it with
                            | Close => Some ([Yielded (multipart frame)], GeneratorExit)
                            | Next => emit (Yielded (multipart frame)) (while_loop script')
                            end
                        end
                    end
                end
            end
        end
  end.

(** [with ... as selfie_segmentation: body]: the context is left on every
    way out of the body, and what ended the body goes on. *)
Definition with_segmentation (body : option (list event * completion))
    : option (list event * completion) :=
  match body with
  | Some (evs, c) => Some (SegmentationEnter :: evs ++ [SegmentationExit], c)
  | None => None
  end.

(** The whole generator: [cap.release()] is the statement after the
    [with] block, reached only when that block ends normally. *)
Definition gen_frames (script : list iteration) : option (list event * completion) :=
  emit (VideoCapture 0)
    match with_segmentation (while_loop script) with
    | Some (evs, Normal) => Some (evs ++ [CapRelease], Normal)
    | Some (evs, c) => Some (evs, c)
    | None => None
    end.

End Pipeline.

Definition is_release (e : event) : bool :=
  match e with
  | CapRelease => true
  | _ => false
  end.

Definition releases (evs : list event) : nat := length (List.filter is_release evs).

(** Element [(y, x, c)] of a three-dimensional array, if there is one. *)
Definition pixel {A} (a : list (list (list A))) (y x c : nat) : option A :=
  match a !! y with
  | Some row =>
      match row !! x with
      | Some px => px !! c
      | None => None
      end
  | None => None
  end.

(** ** Concrete inputs used below *)

(** A backgrounds folder whose [1.png] is there but does not decode. *)
Definition corrupt_first_file : filesystem :=
  <["static/backgrounds/1.png" := File None]>
    (<["static/backgrounds" := Directory]> (<["static" := Directory]> ∅)).

Definition tiny_frame : bgr_image := [[[10; 20; 30]; [40; 50; 60]]].

Definition tiny_results : segmentation_results := SegmentationResults [[1%Q; 0%Q]].

(** One good turn of the loop: the camera delivers [tiny_frame], nothing is
    selected, segmentation and encoding succeed. *)
Definition good_turn (c : consumer) : iteration :=
  Iteration true (Some tiny_frame) module_globals
            (fun _ => Ok tiny_results) (fun _ _ => Ok (true, NdArray "JPEG")) c.


(** The camera is closed when the loop looks at it. *)
Definition closed_turn : iteration :=
  Iteration false None module_globals
            (fun _ => Ok tiny_results) (fun _ _ => Ok (true, NdArray "JPEG")) Next.

Definition ones_results : segmentation_results := SegmentationResults [[1%Q; 1%Q]].

Definition one_pixel_background : bgr_image := [[[1; 2; 3]]].

(** Nearest-neighbour resizing, one of the interpolations [cv2.resize]
    offers; it serves as the resize of the examples. *)
Definition nearest_resize (src : bgr_image) (dsize : nat * nat) : bgr_image :=
  let w := fst dsize in
  let h := snd dsize in
  let sh := length src in
  let sw := length (hd [] src) in
  fmap (M := list)
    (fun y : nat =>
       fmap (M := list)
         (fun x : nat =>
            match src !! (y * sh / h)%nat with
            | Some row => default [] (row !! (x * sw / w)%nat)
            | None => []
            end) (seq 0 w)) (seq 0 h).

(** The blur of the examples: every pixel becomes mid grey. *)
Definition grey_blur (src : bgr_image) (ksize : nat * nat) (sigmaX : Z) : bgr_image :=
  fmap (M := list) (fmap (M := list) (fun _ : list Z => [128; 128; 128])) src.

Definition six_backgrounds : list (option bgr_image) :=
  replicate 6 (Some one_pixel_background).

(** Every mask value within three rows and three columns of a position (the
    7 x 7 neighbourhood, as far as it lies inside the mask) is strictly above
    [t]. *)
Definition neighbourhood_above (t : Q) (m : mask) (y x : nat) : Prop :=
  forall (dy dx : Z) (u : Q),
    -3 <= dy <= 3 -> -3 <= dx <= 3 ->
    at2 m (Z.of_nat y + dy) (Z.of_nat x + dx) = Some u ->
    (t < u)%Q.

(** The words of the design for the mask processor: a position counts as
    foreground when its eroded value is strictly above 0.1. *)
Definition eroded_above_threshold (m : mask) (y x : nat) : Prop :=
  neighbourhood_above (1 # 10) m y x.

(** The same with the number the comparison really uses: 0.1 as a
    [float32], which is 13421773 / 2^27. *)
Definition eroded_above_float32_threshold (m : mask) (y x : nat) : Prop :=
  neighbourhood_above (13421773 # 134217728) m y x.

(** ** Notions used by the further properties *)

(** The array [create_placeholder_background] has filled in when it calls
    [cv2.putText]. *)
Definition placeholder_gradient : bgr_image :=
  foldl (fun (placeholder : bgr_image) (y : nat) =>
           let r := 255 * Z.of_nat y / 480 in
           let g := 255 * (480 - Z.of_nat y) / 480 in
           let b := 128 in
           <[y := replicate 640 [b; g; r]]> placeholder)
        (np_zeros 480 640 3) (seq 0 480).

(** [a.shape == (h, w, c)] and [m.shape == (h, w)]. *)
Definition has_shape {A} (a : list (list (list A))) (h w c : nat) : Prop :=
  length a = h /\
  forall row, row ∈ a -> length row = w /\ forall px, px ∈ row -> length px = c.

Definition mask_shape {A} (m : list (list A)) (h w : nat) : Prop :=
  length m = h /\ forall row, row ∈ m -> length row = w.

(** What the body of the [with] block can add to the trace: the warning of a
    failed read, or a chunk in multipart framing. *)
Definition loop_event (e : event) : Prop :=
  e = Printed "Warning: Empty camera frame received" \/
  exists buffer, e = Yielded (multipart buffer).

(** A [putText] that draws nothing, for the examples. *)
Definition blank_putText (img : bgr_image) (text : string) (org : Z * Z)
    (fontFace fontScale : Z) (color : Z * Z * Z) (thickness : Z) : bgr_image := img.

(** A folder in which only [2.png] is present, and decodes. *)
Definition second_file_only : filesystem :=
  <["static/backgrounds/2.png" := File (Some one_pixel_background)]>
    (<["static/backgrounds" := Directory]> (<["static" := Directory]> ∅)).

(** * Properties *)

(** ** Session state *)

Ltac range_cases :=
  repeat match goal with
         | |- context [?a =? ?b] => destruct (Z.eqb_spec a b)
         | |- context [?a <=? ?b] => destruct (Z.leb_spec a b)
         | |- context [?a <? ?b] => destruct (Z.ltb_spec a b)
         | |- context [?a >=? ?b] => rewrite (Z.geb_leb a b)
         end; simpl.

(** C5. [set_background] accepts its argument exactly when the conversion to
    an integer succeeds and the integer is [-1] or a position of the loaded
    backgrounds.  Then it stores the integer (nothing else changes) and answers
    with a success that repeats it.  A text that is no integer gets the
    format error, an integer out of range gets the range error, and both
    leave the globals as they were. *)
Theorem set_background_spec (int : string -> option Z) (s : string) (g : globals) :
  match int s with
  | None =>
      set_background int s g =
        (g, Json [("status", JStr "error"); ("message", JStr "Invalid index format")] 400)
  | Some n =>
      (n = -1 \/ 0 <= n < len (background_images g) ->
         set_background int s g =
           (Globals n (apply_blur g) (background_images g),
            Json [("status", JStr "success"); ("selected_index", JInt n)] 200))
      /\ (~ (n = -1 \/ 0 <= n < len (background_images g)) ->
         set_background int s g =
           (g, Json [("status", JStr "error"); ("message", JStr "Invalid index")] 400))
  end.
Proof.
  unfold set_background. destruct (int s) as [n|]; [|reflexivity].
  split; intros H; range_cases; try reflexivity; exfalso; lia.
Qed.

Lemma handle_background_images int r g :
  background_images (fst (handle int r g)) = background_images g.
Proof.
  destruct r as [|s|st]; simpl; try reflexivity.
  unfold set_background. destruct (int s) as [n|]; [|reflexivity].
  destruct (_ || _); reflexivity.
Qed.

Lemma handle_index_ok int r g : index_ok g -> index_ok (fst (handle int r g)).
Proof.
  intros Hg. destruct r as [|s|st]; simpl.
  - left. reflexivity.
  - unfold set_background. destruct (int s) as [n|]; [|exact Hg].
    destruct ((n =? -1) || ((0 <=? n) && (n <? len (background_images g)))) eqn:E;
      [|exact Hg].
    unfold index_ok. simpl. lia.
  - exact Hg.
Qed.

Lemma states_index_ok int rs : forall g, index_ok g -> Forall index_ok (states int rs g).
Proof.
  induction rs as [|r rs IH]; intros g Hg; simpl.
  - constructor; [exact Hg | constructor].
  - constructor; [exact Hg|]. apply IH, handle_index_ok, Hg.
Qed.

Lemma states_background_images int rs :
  forall g, Forall (fun g' => background_images g' = background_images g) (states int rs g).
Proof.
  induction rs as [|r rs IH]; intros g; simpl.
  - constructor; [reflexivity | constructor].
  - constructor; [reflexivity|].
    eapply Forall_impl; [apply IH|]. simpl. intros g' ->.
    apply handle_background_images.
Qed.

(** C6. From the state the module starts in (nothing selected, the
    backgrounds loaded), every state reached by any sequence of page loads,
    [set_background] and [toggle_blur] requests has a [selected_bg_index] that
    is [-1] or a position of the loaded backgrounds, which stay the same.
    (When [load_backgrounds] raises, the module is not imported and there is
    no state to speak of.) *)
Theorem selected_index_invariant (int : string -> option Z)
    (putText : bgr_image -> string -> Z * Z -> Z -> Z -> Z * Z * Z -> Z -> bgr_image)
    (may_create : bool) (fs fs' : filesystem) (g0 : globals) (rs : list request)
    (Hload : load_backgrounds putText may_create fs module_globals = Ok (fs', g0)) :
  Forall (fun g => index_ok g /\ background_images g = background_images g0)
         (states int rs g0).
Proof.
  apply Forall_and. split.
  - apply states_index_ok. left. revert Hload. unfold load_backgrounds.
    destruct (path_exists fs BACKGROUND_FOLDER); [intros [= _ <-]; reflexivity|].
    destruct (makedirs may_create fs); [intros [= _ <-]; reflexivity | discriminate].
  - apply states_background_images.
Qed.

(** ** Compositor *)

Lemma lookup_zip3_with {A B C D} (f : A -> B -> C -> D) l1 l2 l3 (i : nat) :
  zip3_with f l1 l2 l3 !! i =
    match l1 !! i, l2 !! i, l3 !! i with
    | Some a, Some b, Some c => Some (f a b c)
    | _, _, _ => None
    end.
Proof.
  unfold zip3_with. rewrite lookup_zip_with, lookup_zip_with.
  destruct (l1 !! i), (l2 !! i), (l3 !! i); reflexivity.
Qed.

(** [np.where] chooses element by element. *)
Lemma pixel_np_where (cond : list (list (list bool))) (a b : list (list (list Z)))
    (y x c : nat) :
  pixel (np_where cond a b) y x c =
    match pixel cond y x c, pixel a y x c, pixel b y x c with
    | Some t, Some u, Some v => Some (if t then u else v)
    | _, _, _ => None
    end.
Proof.
  unfold pixel, np_where. rewrite lookup_zip3_with.
  destruct (cond !! y) as [cr|], (a !! y) as [ar|], (b !! y) as [br|];
    cbv beta iota; try reflexivity.
  - rewrite lookup_zip3_with.
    destruct (cr !! x) as [cp|], (ar !! x) as [ap|], (br !! x) as [bp|];
      cbv beta iota; try reflexivity.
    + rewrite lookup_zip3_with.
      destruct (cp !! c), (ap !! c), (bp !! c); reflexivity.
    + destruct (cp !! c), (ap !! c); reflexivity.
    + destruct (cp !! c); reflexivity.
    + destruct (cp !! c); reflexivity.
  - destruct (cr !! x) as [cp|], (ar !! x) as [ap|]; try reflexivity.
    + destruct (cp !! c), (ap !! c); reflexivity.
    + destruct (cp !! c); reflexivity.
  - destruct (cr !! x) as [cp|]; try reflexivity.
    destruct (cp !! c); reflexivity.
  - destruct (cr !! x) as [cp|]; try reflexivity.
    destruct (cp !! c); reflexivity.
Qed.

Lemma py_index_in_range {A} (l : list A) (i : Z) :
  0 <= i < len l -> exists a, l !! Z.to_nat i = Some a /\ py_index l i = Ok a.
Proof.
  intros Hi. destruct (lookup_lt_is_Some_2 l (Z.to_nat i)) as [a Ha].
  { unfold len in Hi. lia. }
  exists a. split; [exact Ha|].
  assert ((i <? 0) = false) as Hlt by (apply Z.ltb_ge; lia).
  unfold py_index, lookupZ. cbv zeta. rewrite !Hlt, Ha. reflexivity.
Qed.

Section CompositorFacts.
Variable resize : bgr_image -> nat * nat -> bgr_image.
Variable GaussianBlur : bgr_image -> nat * nat -> Z -> bgr_image.

(** Policy A where the selected slot holds an image: the output has,
    wherever the condition is true, the element of the camera frame, and
    wherever it is false, the element of the background resized to the
    frame's width and height; with blur on, that resized background is first
    blurred with the 55 x 55 kernel and sigma 0, and the frame's own elements
    are used unblurred. *)
Theorem policy_A_virtual_background (g : globals) (image bg : bgr_image)
    (results : segmentation_results)
    (Hsel : 0 <= selected_bg_index g < len (background_images g))
    (Hbg : background_images g !! Z.to_nat (selected_bg_index g) = Some (Some bg)) :
  let cond := mask_condition (segmentation_mask results) in
  let resized := resize bg (shape1 image, shape0 image) in
  let background :=
    if apply_blur g then GaussianBlur resized (55%nat, 55%nat) 0 else resized in
  exists out,
    apply_effects resize GaussianBlur g image results = Ok out /\
    forall y x c t p q,
      pixel cond y x c = Some t ->
      pixel image y x c = Some p ->
      pixel background y x c = Some q ->
      pixel out y x c = Some (if t then p else q).
Proof.
  intros cond resized background.
  exists (np_where cond image background). split.
  - unfold apply_effects.
    destruct (py_index_in_range (background_images g) (selected_bg_index g) Hsel)
      as (a & Ha & Hidx).
    rewrite Hbg in Ha. injection Ha as <-. rewrite Hidx.
    range_cases; try lia. reflexivity.
  - intros y x c t p q Ht Hp Hq.
    rewrite pixel_np_where, Ht, Hp, Hq. reflexivity.
Qed.

(** C2. With nothing selected ([-1]) and blur on, the output has the
    frame's element wherever the condition is true and the element of the
    frame blurred with the 55 x 55 kernel wherever it is false. *)
Theorem policy_B_blur_backdrop (g : globals) (image : bgr_image)
    (results : segmentation_results)
    (Hsel : selected_bg_index g = -1) (Hblur : apply_blur g = true) :
  let cond := mask_condition (segmentation_mask results) in
  let blurred := GaussianBlur image (55%nat, 55%nat) 0 in
  exists out,
    apply_effects resize GaussianBlur g image results = Ok out /\
    forall y x c t p q,
      pixel cond y x c = Some t ->
      pixel image y x c = Some p ->
      pixel blurred y x c = Some q ->
      pixel out y x c = Some (if t then p else q).
Proof.
  intros cond blurred. exists (np_where cond image blurred). split.
  - unfold apply_effects. rewrite Hsel, Hblur. reflexivity.
  - intros y x c t p q Ht Hp Hq.
    rewrite pixel_np_where, Ht, Hp, Hq. reflexivity.
Qed.

(** C3. With nothing selected ([-1]) and blur off, the output is the input
    frame itself, whatever the mask. *)
Theorem policy_C_passthrough (g : globals) (image : bgr_image)
    (results : segmentation_results)
    (Hsel : selected_bg_index g = -1) (Hblur : apply_blur g = false) :
  apply_effects resize GaussianBlur g image results = Ok image.
Proof. unfold apply_effects. rewrite Hsel, Hblur. reflexivity. Qed.

(** C10. The compositor checks the index itself: it never fails with an
    index error, and with a selected index that is no position of the loaded
    backgrounds it does what it does without a background (blurred backdrop
    when blur is on, the frame itself otherwise). *)
Theorem compositor_guards_index (g : globals) (image : bgr_image)
    (results : segmentation_results) :
  apply_effects resize GaussianBlur g image results <> Raise IndexError /\
  (~ (0 <= selected_bg_index g < len (background_images g)) ->
   apply_effects resize GaussianBlur g image results =
     Ok (no_background GaussianBlur g image results)).
Proof.
  split.
  - unfold apply_effects. range_cases; try (destruct (apply_blur g); discriminate).
    destruct (py_index_in_range (background_images g) (selected_bg_index g))
      as (a & _ & ->); [lia|].
    destruct a; discriminate.
  - intros Hbad. unfold apply_effects, no_background.
    range_cases; try lia; destruct (apply_blur g); reflexivity.
Qed.
End CompositorFacts.

(** ** Mask processor *)

Lemma in_option_list {A} (o : option A) (u : A) : In u (option_list o) <-> o = Some u.
Proof.
  destruct o as [a|]; simpl; split; try tauto; try discriminate.
  - intros [->|[]]. reflexivity.
  - intros [= ->]. left. reflexivity.
Qed.

(** The window holds exactly the mask values under the nonzero entries of
    the structuring element. *)
Lemma in_window (m : mask) (kernel : list (list Z)) (y x : nat) (u : Q) :
  In u (window m kernel y x) <->
  exists (ky kx : nat) (krow : list Z) (k : Z),
    kernel !! ky = Some krow /\ krow !! kx = Some k /\ k <> 0 /\
    at2 m (Z.of_nat y + Z.of_nat ky - len kernel / 2)
          (Z.of_nat x + Z.of_nat kx - len (hd [] kernel) / 2) = Some u.
Proof.
  unfold window. rewrite in_concat. split.
  - intros (l & Hl & Hu).
    apply list_elem_of_In, elem_of_lookup_imap in Hl as (ky & krow & -> & Hky).
    apply in_concat in Hu as (l & Hl & Hu).
    apply list_elem_of_In, elem_of_lookup_imap in Hl as (kx & k & -> & Hkx).
    destruct (Z.eqb_spec k 0) as [|Hk]; [destruct Hu|].
    apply in_option_list in Hu. exists ky, kx, krow, k. auto.
  - intros (ky & kx & krow & k & Hky & Hkx & Hk & Hu).
    eexists. split.
    + apply list_elem_of_In, elem_of_lookup_imap. exists ky, krow. eauto.
    + apply in_concat. eexists. split.
      * apply list_elem_of_In, elem_of_lookup_imap. exists kx, k. eauto.
      * destruct (Z.eqb_spec k 0); [contradiction|]. apply in_option_list, Hu.
Qed.

Lemma lookup_np_ones (h w ky kx : nat) (krow : list Z) (k : Z) :
  np_ones h w !! ky = Some krow -> krow !! kx = Some k ->
  k = 1 /\ (ky < h)%nat /\ (kx < w)%nat.
Proof.
  unfold np_ones. intros [-> Hky]%lookup_replicate [-> Hkx]%lookup_replicate. auto.
Qed.

(** For the 7 x 7 element of ones: the values at most three rows and three
    columns away. *)
Lemma in_window_7x7 (m : mask) (y x : nat) (u : Q) :
  In u (window m (np_ones 7 7) y x) <->
  exists dy dx : Z, -3 <= dy <= 3 /\ -3 <= dx <= 3 /\
    at2 m (Z.of_nat y + dy) (Z.of_nat x + dx) = Some u.
Proof.
  rewrite in_window. change (len (np_ones 7 7) / 2) with 3.
  change (len (hd [] (np_ones 7 7)) / 2) with 3. split.
  - intros (ky & kx & krow & k & Hky & Hkx & _ & Hu).
    destruct (lookup_np_ones _ _ _ _ _ _ Hky Hkx) as (_ & ? & ?).
    exists (Z.of_nat ky - 3), (Z.of_nat kx - 3).
    repeat split; try lia.
    rewrite <- Hu. f_equal; lia.
  - intros (dy & dx & Hdy & Hdx & Hu).
    exists (Z.to_nat (dy + 3)), (Z.to_nat (dx + 3)), (replicate 7 1), 1.
    repeat split.
    + apply lookup_replicate. split; [reflexivity | lia].
    + apply lookup_replicate. split; [reflexivity | lia].
    + discriminate.
    + rewrite <- Hu. f_equal; lia.
Qed.

Lemma foldr_Qmin_above (t w : Q) (ws : list Q) :
  (t < foldr Qmin w ws)%Q <-> (forall u, In u (w :: ws) -> (t < u)%Q).
Proof.
  induction ws as [|a ws IH]; simpl.
  - split; [intros H u [<-|[]]; exact H | intros H; apply H; auto].
  - rewrite Q.min_glb_lt_iff, IH. simpl. split.
    + intros [Ha H] u [<-|[<-|Hu]]; auto.
    + intros H. split; [auto|]. intros u [<-|Hu]; auto.
Qed.

Lemma foldr_Qmin_const (q w : Q) (ws : list Q) :
  (forall u, In u (w :: ws) -> u = q) -> foldr Qmin w ws = q.
Proof.
  induction ws as [|a ws IH]; simpl; intros H.
  - apply H. auto.
  - rewrite IH by (intros u [<-|Hu]; apply H; auto).
    rewrite (H a) by auto.
    unfold Qmin, GenericMinMax.gmin. destruct (q ?= q)%Q; reflexivity.
Qed.

(** The number the mask is compared with: the binary64 number written
    [0.1], rounded to binary32. *)
Lemma float32_threshold :
  (float32 SEGMENTATION_THRESHOLD == 13421773 # 134217728)%Q.
Proof. vm_compute. reflexivity. Qed.

Lemma one_is_foreground :
  negb (Qle_bool 1 (float32 SEGMENTATION_THRESHOLD)) = true.
Proof. vm_compute. reflexivity. Qed.

Lemma zero_is_background :
  negb (Qle_bool 0 (float32 SEGMENTATION_THRESHOLD)) = false.
Proof. vm_compute. reflexivity. Qed.

Lemma above_threshold (v : Q) :
  negb (Qle_bool v (float32 SEGMENTATION_THRESHOLD)) = true <->
  (13421773 # 134217728 < v)%Q.
Proof.
  pose proof float32_threshold as Ht. rewrite negb_true_iff. split.
  - intros H. apply Qnot_le_lt. intros Hle. rewrite <- Ht in Hle.
    apply Qle_bool_iff in Hle. congruence.
  - intros H. destruct (Qle_bool v (float32 SEGMENTATION_THRESHOLD)) eqn:E;
      [|reflexivity].
    apply Qle_bool_iff in E. rewrite Ht in E.
    exfalso. exact (Qlt_not_le _ _ H E).
Qed.

(** The centre of the window is the position itself. *)
Lemma centre_in_window (m : mask) (y x : nat) (row : list Q) (v : Q) :
  m !! y = Some row -> row !! x = Some v -> In v (window m (np_ones 7 7) y x).
Proof.
  intros Hrow Hv. apply in_window_7x7. exists 0, 0.
  repeat split; try lia.
  unfold at2, lookupZ.
  replace (Z.of_nat y + 0 <? 0) with false by (symmetry; apply Z.ltb_ge; lia).
  replace (Z.of_nat x + 0 <? 0) with false by (symmetry; apply Z.ltb_ge; lia).
  rewrite !Z.add_0_r, !Nat2Z.id, Hrow. exact Hv.
Qed.

Lemma pixel_mask_condition (m : mask) (y x c : nat) (row : list Q) (v : Q) :
  m !! y = Some row -> row !! x = Some v -> (c < 3)%nat ->
  pixel (mask_condition m) y x c =
    Some (negb (Qle_bool (erode_at m (np_ones 7 7) y x v)
                         (float32 SEGMENTATION_THRESHOLD))).
Proof.
  intros Hrow Hv Hc.
  unfold pixel, mask_condition, gt, np_stack3, erode, erode_once. simpl Nat.iter.
  cbv zeta.
  rewrite !list_lookup_fmap, list_lookup_imap, Hrow. simpl.
  rewrite !list_lookup_fmap, list_lookup_imap, Hv. simpl.
  destruct c as [|[|[|c]]]; try reflexivity. lia.
Qed.

Lemma erode_at_above (t : Q) (m : mask) (y x : nat) (row : list Q) (v : Q) :
  m !! y = Some row -> row !! x = Some v ->
  (t < erode_at m (np_ones 7 7) y x v)%Q <-> neighbourhood_above t m y x.
Proof.
  intros Hrow Hv. pose proof (centre_in_window m y x row v Hrow Hv) as Hcentre.
  unfold erode_at, neighbourhood_above.
  destruct (window m (np_ones 7 7) y x) as [|w ws] eqn:E; [destruct Hcentre|].
  rewrite foldr_Qmin_above, <- E. split.
  - intros H dy dx u Hdy Hdx Hu. apply H, in_window_7x7. eauto.
  - intros H u (dy & dx & Hdy & Hdx & Hu)%in_window_7x7. eauto.
Qed.

Lemma at2_elem_of {A} (m : list (list A)) (y x : Z) (u : A) :
  at2 m y x = Some u -> exists row, row ∈ m /\ u ∈ row.
Proof.
  unfold at2, lookupZ. destruct (y <? 0); [discriminate|].
  destruct (m !! Z.to_nat y) as [row|] eqn:Hrow; [|discriminate].
  destruct (x <? 0); [discriminate|]. intros Hu.
  exists row. split; eapply list_elem_of_lookup_2; eassumption.
Qed.

(** Erosion leaves a mask of one single value as it is. *)
Lemma erode_once_const (q : Q) (kernel : list (list Z)) (m : mask) :
  (forall row u, row ∈ m -> u ∈ row -> u = q) -> erode_once kernel m = m.
Proof.
  intros Hq. unfold erode_once. apply list_eq. intros y.
  rewrite list_lookup_imap. destruct (m !! y) as [row|] eqn:Hrow; [|reflexivity].
  simpl. f_equal. apply list_eq. intros x.
  rewrite list_lookup_imap. destruct (row !! x) as [v|] eqn:Hv; [|reflexivity].
  simpl. f_equal.
  assert (v = q) as ->.
  { eapply Hq; eapply list_elem_of_lookup_2; eassumption. }
  unfold erode_at. destruct (window m kernel y x) as [|w ws] eqn:E; [reflexivity|].
  apply foldr_Qmin_const. rewrite <- E.
  intros u (ky & kx & krow & k & _ & _ & _ & Hu)%in_window.
  apply at2_elem_of in Hu as (r & Hr & Hu). eauto.
Qed.

Lemma mask_condition_replicate (h w : nat) (q : Q) :
  mask_condition (replicate h (replicate w q)) =
    replicate h (replicate w
      (replicate 3 (negb (Qle_bool q (float32 SEGMENTATION_THRESHOLD))))).
Proof.
  unfold mask_condition, erode. simpl Nat.iter.
  rewrite (erode_once_const q).
  - unfold gt, np_stack3. cbv zeta. rewrite !fmap_replicate. reflexivity.
  - intros row u [-> _]%elem_of_replicate [-> _]%elem_of_replicate. reflexivity.
Qed.

(** C4. The condition is the mask eroded once with the 7 x 7 element of
    ones, copied to three channels and compared, strictly and in [float32],
    with 0.1: at every position of the mask and each of the three channels it
    is true exactly when all mask values of the 7 x 7 neighbourhood inside
    the mask are strictly above 0.1 rounded to [float32], which is
    13421773 / 2^27.  A mask of ones gives a condition that is true
    everywhere, a mask of zeros one that is false everywhere. *)
Theorem mask_processor_condition (m : mask) :
  (forall (y x c : nat) (row : list Q) (v : Q),
     m !! y = Some row -> row !! x = Some v -> (c < 3)%nat ->
     exists t : bool,
       pixel (mask_condition m) y x c = Some t /\
       (t = true <-> eroded_above_float32_threshold m y x)) /\
  (forall h w : nat,
     mask_condition (replicate h (replicate w 1%Q)) =
       replicate h (replicate w [true; true; true])) /\
  (forall h w : nat,
     mask_condition (replicate h (replicate w 0%Q)) =
       replicate h (replicate w [false; false; false])).
Proof.
  split; [|split].
  - intros y x c row v Hrow Hv Hc. eexists. split.
    + apply (pixel_mask_condition m y x c row v Hrow Hv Hc).
    + rewrite above_threshold. apply (erode_at_above _ m y x row v Hrow Hv).
  - intros h w. rewrite mask_condition_replicate, one_is_foreground. reflexivity.
  - intros h w. rewrite mask_condition_replicate, zero_is_background. reflexivity.
Qed.

(** The comparison is not with 0.1 itself: the [float32] next above 0.1 is
    above 0.1, and a mask holding it gives a false condition. *)
Lemma mask_threshold_counterexample :
  ~ (forall (m : mask) (y x c : nat) (t : bool),
       pixel (mask_condition m) y x c = Some t ->
       (t = true <-> eroded_above_threshold m y x)).
Proof.
  intros Hclaim.
  assert (pixel (mask_condition [[13421773 # 134217728]]) 0 0 0 = Some false) as Hcode
    by (vm_compute; reflexivity).
  apply Hclaim in Hcode. destruct Hcode as [_ Hspec].
  enough (false = true) by discriminate. apply Hspec.
  intros dy dx u _ _ Hu.
  apply at2_elem_of in Hu as (row & ->%list_elem_of_singleton & ->%list_elem_of_singleton).
  reflexivity.
Qed.

(** ** Background store *)

Lemma foldl_snoc {A B} (f : A -> B) (l : list A) (acc : list B) :
  foldl (fun acc i => acc ++ [f i]) acc l = acc ++ (f <$> l).
Proof.
  revert acc. induction l as [|a l IH]; intros acc; simpl.
  - rewrite app_nil_r. reflexivity.
  - rewrite IH, <- app_assoc. reflexivity.
Qed.

Section BackgroundStoreFacts.
Variable putText : bgr_image -> string -> Z * Z -> Z -> Z -> Z * Z * Z -> Z -> bgr_image.
Variable may_create : bool.

(** What a successful run returns: the globals with the list rebuilt from
    the file system it leaves, which is the one it found when the folder was
    there and the one [os.makedirs] made otherwise. *)
Lemma load_backgrounds_ok (fs fs' : filesystem) (g g' : globals) :
  load_backgrounds putText may_create fs g = Ok (fs', g') ->
  g' = load_images putText fs' g /\
  if path_exists fs BACKGROUND_FOLDER then fs' = fs
  else makedirs may_create fs = Ok fs'.
Proof.
  unfold load_backgrounds. destruct (path_exists fs BACKGROUND_FOLDER).
  - intros [= <- <-]. auto.
  - destruct (makedirs may_create fs) as [fs1|e]; [|discriminate].
    intros [= <- <-]. auto.
Qed.

Lemma load_backgrounds_existing (fs : filesystem) (g : globals) :
  path_exists fs BACKGROUND_FOLDER = true ->
  load_backgrounds putText may_create fs g = Ok (fs, load_images putText fs g).
Proof. intros H. unfold load_backgrounds. rewrite H. reflexivity. Qed.

Lemma load_images_images (fs : filesystem) (g : globals) :
  background_images (load_images putText fs g) =
    load_slot putText fs <$> seq 1 NUM_BACKGROUNDS.
Proof.
  unfold load_images. cbn [background_images].
  rewrite foldl_snoc. reflexivity.
Qed.

(** There is one entry for each of the six slots. *)
Lemma load_images_length (fs : filesystem) (g : globals) :
  length (background_images (load_images putText fs g)) = NUM_BACKGROUNDS.
Proof. rewrite load_images_images, length_fmap, length_seq. reflexivity. Qed.

(** A slot without a file gets the generated placeholder. *)
Lemma load_slot_missing (fs : filesystem) (i : nat) :
  fs !! img_path i = None ->
  load_slot putText fs i = Some (create_placeholder_background putText i).
Proof.
  intros H. unfold load_slot, path_exists. rewrite H.
  rewrite bool_decide_eq_false_2; [reflexivity|]. intros [? [=]].
Qed.

(** A slot with a file gets whatever the decoder returns. *)
Lemma load_slot_file (fs : filesystem) (i : nat) (decoded : option bgr_image) :
  fs !! img_path i = Some (File decoded) -> load_slot putText fs i = decoded.
Proof.
  intros H. unfold load_slot, path_exists, imread. rewrite H.
  rewrite bool_decide_eq_true_2; [reflexivity|]. eauto.
Qed.

(** C9, at a file that exists but does not decode: loading succeeds, six
    entries come back, and the first one is Python's [None], not the
    placeholder. *)
Theorem load_backgrounds_corrupt_file :
  exists g',
    load_backgrounds putText may_create corrupt_first_file module_globals =
      Ok (corrupt_first_file, g') /\
    length (background_images g') = 6%nat /\
    background_images g' !! 0%nat = Some None /\
    background_images g' !! 0%nat <>
      Some (Some (create_placeholder_background putText 1)).
Proof.
  exists (load_images putText corrupt_first_file module_globals).
  assert (background_images (load_images putText corrupt_first_file module_globals)
            !! 0%nat = Some None) as H0.
  { rewrite load_images_images, list_lookup_fmap.
    change (seq 1 NUM_BACKGROUNDS !! 0%nat) with (Some 1%nat).
    cbn [fmap option_fmap option_map].
    rewrite (load_slot_file _ 1%nat None); [reflexivity|].
    vm_compute. reflexivity. }
  split; [apply load_backgrounds_existing; vm_compute; reflexivity|].
  split; [apply load_images_length|]. split; [exact H0|].
  rewrite H0. discriminate.
Qed.
End BackgroundStoreFacts.

Lemma corrupt_first_file_loaded
    (putText : bgr_image -> string -> Z * Z -> Z -> Z -> Z * Z * Z -> Z -> bgr_image) :
  let g0 := load_images putText corrupt_first_file module_globals in
  len (background_images g0) = 6 /\
  background_images g0 !! 0%nat = Some None /\
  apply_blur g0 = false.
Proof.
  intros g0. split; [|split; [|reflexivity]].
  - unfold len, g0. rewrite load_images_length. reflexivity.
  - unfold g0. rewrite load_images_images, list_lookup_fmap.
    change (seq 1 NUM_BACKGROUNDS !! 0%nat) with (Some 1%nat).
    cbn [fmap option_fmap option_map].
    rewrite (load_slot_file _ _ 1%nat None); [reflexivity|].
    vm_compute. reflexivity.
Qed.

(** C1, at a background file that exists but does not decode: start-up
    succeeds, [set_background] accepts the index 0 of that file, which is a
    position of the loaded backgrounds, and for every frame the compositor
    raises [AttributeError] where it should have put the frame over the
    background. *)
Theorem virtual_background_on_undecodable_file
    (putText : bgr_image -> string -> Z * Z -> Z -> Z -> Z * Z * Z -> Z -> bgr_image)
    (may_create : bool)
    (resize : bgr_image -> nat * nat -> bgr_image)
    (GaussianBlur : bgr_image -> nat * nat -> Z -> bgr_image)
    (image : bgr_image) (results : segmentation_results) :
  exists g0 g,
    load_backgrounds putText may_create corrupt_first_file module_globals =
      Ok (corrupt_first_file, g0) /\
    set_background py_int "0" g0 =
      (g, Json [("status", JStr "success"); ("selected_index", JInt 0)] 200) /\
    0 <= selected_bg_index g < len (background_images g) /\
    apply_effects resize GaussianBlur g image results = Raise AttributeError.
Proof.
  destruct (corrupt_first_file_loaded putText) as (Hlen & Hnone & Hblur).
  exists (load_images putText corrupt_first_file module_globals).
  exists (Globals 0 false
            (background_images (load_images putText corrupt_first_file module_globals))).
  split; [apply load_backgrounds_existing; vm_compute; reflexivity|].
  revert Hlen Hnone Hblur.
  generalize (load_images putText corrupt_first_file module_globals). intros g0 Hlen Hnone Hblur.
  split; [|split].
  - unfold set_background. change (py_int "0") with (Some 0).
    rewrite Hlen, Hblur. reflexivity.
  - cbn [selected_bg_index background_images]. lia.
  - unfold apply_effects. cbn [selected_bg_index background_images apply_blur].
    rewrite Hlen. change ((0 >=? 0) && (0 <? 6)) with true. cbv iota.
    unfold py_index, lookupZ. cbv zeta. change (0 <? 0) with false. cbv iota.
    change (Z.to_nat 0) with 0%nat. rewrite Hnone. reflexivity.
Qed.

(** ** Frame pipeline *)

Lemma releases_app (evs evs' : list event) :
  releases (evs ++ evs') = (releases evs + releases evs')%nat.
Proof. unfold releases. rewrite List.filter_app, length_app. reflexivity. Qed.

Lemma releases_cons (e : event) (evs : list event) :
  releases (e :: evs) = ((if is_release e then 1 else 0) + releases evs)%nat.
Proof. unfold releases. simpl. destruct (is_release e); reflexivity. Qed.

Section PipelineFacts.
Variable resize : bgr_image -> nat * nat -> bgr_image.
Variable GaussianBlur : bgr_image -> nat * nat -> Z -> bgr_image.

(** Nothing inside the loop releases the camera. *)
Lemma while_loop_releases (script : list iteration) :
  forall evs c,
    while_loop resize GaussianBlur script = Some (evs, c) -> releases evs = 0%nat.
Proof.
  induction script as [|it script IH]; intros evs c; simpl; [discriminate|].
  destruct (isOpened it); simpl; [|intros [= <- <-]; reflexivity].
  destruct (read it) as [image|]; [|intros [= <- <-]; reflexivity].
  destruct (process it _) as [results|e]; [|intros [= <- <-]; reflexivity].
  destruct (apply_effects _ _ _ _ _) as [out|e]; [|intros [= <- <-]; reflexivity].
  destruct (imencode it _ _) as [[ret [frame|]]|e]; simpl;
    [|intros [= <- <-]; reflexivity|intros [= <- <-]; reflexivity].
  destruct (consumer_step it); [|intros [= <- <-]; reflexivity].
  destruct (while_loop resize GaussianBlur script) as [[evs' c']|]; [|discriminate].
  intros [= <- <-]. exact (IH evs' c' eq_refl).
Qed.

(** The camera is released once when the loop ends by itself (camera closed
    or a failed read), and not at all when the generator is closed from
    outside or an exception leaves it. *)
Lemma gen_frames_releases (script : list iteration) (evs : list event) (c : completion) :
  gen_frames resize GaussianBlur script = Some (evs, c) ->
  releases evs = match c with Normal => 1%nat | _ => 0%nat end.
Proof.
  unfold gen_frames, with_segmentation.
  destruct (while_loop resize GaussianBlur script) as [[evs' c']|] eqn:E; [|discriminate].
  apply while_loop_releases in E.
  destruct c'; simpl; intros [= <- <-];
    repeat (rewrite releases_cons || rewrite releases_app);
    rewrite E; reflexivity.
Qed.

(** An exception of the segmentation model leaves the loop at once: nothing
    is yielded for that frame. *)
Lemma while_loop_process_raises (it : iteration) (script : list iteration)
    (image : bgr_image) (e : exn) :
  isOpened it = true -> read it = Some image ->
  process it (cvtColor (flip image 1) COLOR_BGR2RGB) = Raise e ->
  while_loop resize GaussianBlur (it :: script) = Some ([], Exception e).
Proof. intros Hopen Hread Hraise. simpl. rewrite Hopen, Hread, Hraise. reflexivity. Qed.

(** So does an exception of the encoder. *)
Lemma while_loop_imencode_raises (it : iteration) (script : list iteration)
    (image out : bgr_image) (results : segmentation_results) (e : exn) :
  isOpened it = true -> read it = Some image ->
  process it (cvtColor (flip image 1) COLOR_BGR2RGB) = Ok results ->
  apply_effects resize GaussianBlur (session it)
    (cvtColor (cvtColor (flip image 1) COLOR_BGR2RGB) COLOR_RGB2BGR) results = Ok out ->
  imencode it ".jpg" out = Raise e ->
  while_loop resize GaussianBlur (it :: script) = Some ([], Exception e).
Proof.
  intros Hopen Hread Hseg Hout Hraise. simpl.
  rewrite Hopen, Hread, Hseg, Hout, Hraise. reflexivity.
Qed.

(** C7, at a client that goes away after the first chunk: the generator is
    closed at its [yield], the segmentation context is left, and the camera
    is never released. *)
Theorem close_skips_release :
  gen_frames resize GaussianBlur [good_turn Close] =
    Some ([VideoCapture 0; SegmentationEnter; Yielded (multipart "JPEG");
           SegmentationExit], GeneratorExit) /\
  releases [VideoCapture 0; SegmentationEnter; Yielded (multipart "JPEG");
            SegmentationExit] = 0%nat.
Proof. split; reflexivity. Qed.

End PipelineFacts.

(** ** The statements above at concrete inputs *)

Example py_int_minus_one : py_int " -1 " = Some (-1).
Proof. reflexivity. Qed.

Example py_int_grouped : py_int "1_0" = Some 10.
Proof. reflexivity. Qed.

Example py_int_letters : py_int "abc" = None.
Proof. reflexivity. Qed.

Example py_int_fraction : py_int "2.0" = None.
Proof. reflexivity. Qed.

Lemma set_background_spec_witness :
  set_background py_int "2" (Globals (-1) true six_backgrounds) =
    (Globals 2 true six_backgrounds,
     Json [("status", JStr "success"); ("selected_index", JInt 2)] 200) /\
  set_background py_int "6" (Globals 3 true six_backgrounds) =
    (Globals 3 true six_backgrounds,
     Json [("status", JStr "error"); ("message", JStr "Invalid index")] 400) /\
  set_background py_int "two" (Globals 3 true six_backgrounds) =
    (Globals 3 true six_backgrounds,
     Json [("status", JStr "error"); ("message", JStr "Invalid index format")] 400).
Proof.
  split; [|split].
  - pose proof (set_background_spec py_int "2" (Globals (-1) true six_backgrounds)) as H.
    change (py_int "2") with (Some 2) in H. destruct H as [Hyes _].
    apply Hyes. right. unfold len. simpl. lia.
  - pose proof (set_background_spec py_int "6" (Globals 3 true six_backgrounds)) as H.
    change (py_int "6") with (Some 6) in H. destruct H as [_ Hno].
    apply Hno. unfold len. simpl. lia.
  - exact (set_background_spec py_int "two" (Globals 3 true six_backgrounds)).
Defined.

Lemma policy_A_virtual_background_witness :
  exists out,
    apply_effects nearest_resize grey_blur (Globals 0 true six_backgrounds)
                  tiny_frame ones_results = Ok out /\
    pixel out 0 1 2 = Some 60.
Proof.
  destruct (policy_A_virtual_background nearest_resize grey_blur
              (Globals 0 true six_backgrounds) tiny_frame one_pixel_background
              ones_results) as (out & Hout & Hpixel).
  - unfold len. simpl. lia.
  - reflexivity.
  - exists out. split; [exact Hout|].
    apply (Hpixel 0%nat 1%nat 2%nat true 60 128); reflexivity.
Defined.

Lemma policy_B_blur_backdrop_witness :
  exists out,
    apply_effects nearest_resize grey_blur (Globals (-1) true six_backgrounds)
                  tiny_frame tiny_results = Ok out /\
    pixel out 0 1 2 = Some 128.
Proof.
  destruct (policy_B_blur_backdrop nearest_resize grey_blur
              (Globals (-1) true six_backgrounds) tiny_frame tiny_results)
    as (out & Hout & Hpixel).
  - reflexivity.
  - reflexivity.
  - exists out. split; [exact Hout|].
    apply (Hpixel 0%nat 1%nat 2%nat false 60 128); reflexivity.
Defined.

Lemma policy_C_passthrough_witness :
  apply_effects nearest_resize grey_blur (Globals (-1) false six_backgrounds)
                tiny_frame tiny_results = Ok tiny_frame.
Proof. apply policy_C_passthrough; reflexivity. Defined.

Lemma compositor_guards_index_witness :
  apply_effects nearest_resize grey_blur (Globals 6 false six_backgrounds)
                tiny_frame tiny_results = Ok tiny_frame.
Proof.
  apply (compositor_guards_index nearest_resize grey_blur
           (Globals 6 false six_backgrounds) tiny_frame tiny_results).
  unfold len. simpl. lia.
Defined.

(** One low value spoils the condition up to three columns away, and the
    comparison with the threshold is strict. *)
Example erosion_reach :
  mask_condition [[1; 1; 1; 1; 1; 1; 1; 1; 0]%Q] =
    [[[true; true; true]; [true; true; true]; [true; true; true];
      [true; true; true]; [true; true; true];
      [false; false; false]; [false; false; false]; [false; false; false];
      [false; false; false]]].
Proof. reflexivity. Qed.

Example threshold_is_strict :
  mask_condition [[1 # 10]] = [[[false; false; false]]] /\
  mask_condition [[11 # 100]] = [[[true; true; true]]].
Proof. split; reflexivity. Qed.

Lemma mask_processor_condition_witness :
  exists t : bool,
    pixel (mask_condition [[1%Q; 0%Q]]) 0 0 0 = Some t /\
    (t = true <-> eroded_above_float32_threshold [[1%Q; 0%Q]] 0 0).
Proof.
  apply (proj1 (mask_processor_condition [[1%Q; 0%Q]]) 0%nat 0%nat 0%nat [1%Q; 0%Q] 1%Q).
  - reflexivity.
  - reflexivity.
  - apply Nat.lt_0_succ.
Defined.

(** * Further properties *)

(** ** Session state *)

(** X1. Selecting a background and switching the blur do not interfere:
    served in either order they leave the same globals, and each request gets
    the answer it would get in the other order. *)
Theorem set_background_toggle_blur_commute (int : string -> option Z)
    (s : string) (st : Z) (g : globals) :
  fst (set_background int s (fst (toggle_blur st g))) =
    fst (toggle_blur st (fst (set_background int s g))) /\
  snd (set_background int s (fst (toggle_blur st g))) = snd (set_background int s g) /\
  snd (toggle_blur st (fst (set_background int s g))) = snd (toggle_blur st g).
Proof.
  unfold set_background, toggle_blur. simpl.
  destruct (int s) as [n|]; [|auto].
  destruct ((n =? -1) || ((0 <=? n) && (n <? len (background_images g)))); auto.
Qed.

(** X2. A request answered with status 400 has changed nothing; only
    [set_background] ever answers 400. *)
Theorem error_response_keeps_globals (int : string -> option Z) (r : request)
    (g : globals) (body : list (string * json_value))
    (Herr : snd (handle int r g) = Json body 400) :
  fst (handle int r g) = g /\ exists s, r = GetSetBackground s.
Proof.
  destruct r as [|s|st]; simpl in Herr; try discriminate Herr.
  split; [|eauto]. simpl. revert Herr. unfold set_background.
  destruct (int s) as [n|]; [|reflexivity].
  destruct ((n =? -1) || ((0 <=? n) && (n <? len (background_images g))));
    [discriminate | reflexivity].
Qed.

Lemma error_response_keeps_globals_witness :
  fst (handle py_int (GetSetBackground "7") (Globals 4 true six_backgrounds)) =
    Globals 4 true six_backgrounds.
Proof.
  apply (error_response_keeps_globals py_int (GetSetBackground "7")
           (Globals 4 true six_backgrounds)
           [("status", JStr "error"); ("message", JStr "Invalid index")]).
  reflexivity.
Defined.

(** ** Compositor *)

Lemma np_where_chooses_first (cond : list (list (list bool)))
    (a b : list (list (list Z))) (y x c : nat) (p : Z) :
  pixel cond y x c = Some true ->
  pixel (np_where cond a b) y x c = Some p ->
  pixel a y x c = Some p.
Proof.
  intros Hcond. rewrite pixel_np_where, Hcond.
  destruct (pixel a y x c) as [u|]; [|discriminate].
  destruct (pixel b y x c); [tauto | discriminate].
Qed.

Section CompositorMore.
Variable resize : bgr_image -> nat * nat -> bgr_image.
Variable GaussianBlur : bgr_image -> nat * nat -> Z -> bgr_image.

(** X3. With the OpenCV and NumPy calls taken as total, the one exception
    the compositor's own code can raise is the [AttributeError] of calling
    [copy] on [None], when the selected position of the background list
    holds [None]. *)
Theorem apply_effects_fails_only_on_none (g : globals) (image : bgr_image)
    (results : segmentation_results) (e : exn)
    (Hraise : apply_effects resize GaussianBlur g image results = Raise e) :
  e = AttributeError /\
  0 <= selected_bg_index g < len (background_images g) /\
  background_images g !! Z.to_nat (selected_bg_index g) = Some None.
Proof.
  revert Hraise. unfold apply_effects.
  destruct ((selected_bg_index g >=? 0) &&
            (selected_bg_index g <? len (background_images g))) eqn:E.
  - assert (0 <= selected_bg_index g < len (background_images g)) as Hsel by lia.
    destruct (py_index_in_range _ _ Hsel) as (a & Ha & ->).
    destruct a as [bg|]; [discriminate|]. intros [= <-]. auto.
  - destruct (apply_blur g); discriminate.
Qed.

(** X4. [set_background] checks the range only: it accepts the position of a
    slot that holds [None], and from then on the compositor raises
    [AttributeError] for every frame. *)
Theorem selecting_none_slot_breaks_compositor (int : string -> option Z)
    (s : string) (i : Z) (g : globals) (image : bgr_image)
    (results : segmentation_results)
    (Hint : int s = Some i)
    (Hrange : 0 <= i < len (background_images g))
    (Hnone : background_images g !! Z.to_nat i = Some None) :
  selected_bg_index (fst (set_background int s g)) = i /\
  apply_effects resize GaussianBlur (fst (set_background int s g)) image results =
    Raise AttributeError.
Proof.
  unfold set_background. rewrite Hint.
  replace ((i =? -1) || ((0 <=? i) && (i <? len (background_images g)))) with true
    by (symmetry; lia).
  simpl. split; [reflexivity|].
  unfold apply_effects. simpl.
  replace ((i >=? 0) && (i <? len (background_images g))) with true by (symmetry; lia).
  destruct (py_index_in_range _ _ Hrange) as (a & Ha & ->).
  rewrite Hnone in Ha. injection Ha as <-. reflexivity.
Qed.

(** X5. Whatever is selected and whether blur is on or off, an element of
    the output at a position where the condition is true is the element of
    the camera frame. *)
Theorem foreground_is_the_frame (g : globals) (image out : bgr_image)
    (results : segmentation_results) (y x c : nat) (p : Z)
    (Hout : apply_effects resize GaussianBlur g image results = Ok out)
    (Hcond : pixel (mask_condition (segmentation_mask results)) y x c = Some true)
    (Hp : pixel out y x c = Some p) :
  pixel image y x c = Some p.
Proof.
  revert Hout. unfold apply_effects.
  fold (mask_condition (segmentation_mask results)).
  destruct ((selected_bg_index g >=? 0) &&
            (selected_bg_index g <? len (background_images g))).
  - destruct (py_index _ _) as [[bg|]|e']; try discriminate.
    intros [= <-]. exact (np_where_chooses_first _ _ _ _ _ _ _ Hcond Hp).
  - destruct (apply_blur g); intros [= <-]; [|exact Hp].
    exact (np_where_chooses_first _ _ _ _ _ _ _ Hcond Hp).
Qed.
End CompositorMore.

Lemma apply_effects_fails_only_on_none_witness :
  0 <= 1 < len [Some one_pixel_background; None] /\
  [Some one_pixel_background; None] !! Z.to_nat 1 = Some (@None bgr_image).
Proof.
  apply (apply_effects_fails_only_on_none nearest_resize grey_blur
           (Globals 1 false [Some one_pixel_background; None])
           tiny_frame tiny_results AttributeError).
  reflexivity.
Defined.

Lemma selecting_none_slot_breaks_compositor_witness :
  apply_effects nearest_resize grey_blur
    (fst (set_background py_int "1" (Globals (-1) false [Some one_pixel_background; None])))
    tiny_frame tiny_results = Raise AttributeError.
Proof.
  apply (selecting_none_slot_breaks_compositor nearest_resize grey_blur py_int "1" 1
           (Globals (-1) false [Some one_pixel_background; None])
           tiny_frame tiny_results).
  - reflexivity.
  - unfold len. simpl. lia.
  - reflexivity.
Defined.

Lemma foreground_is_the_frame_witness :
  pixel tiny_frame 0 1 2 = Some 60.
Proof.
  apply (foreground_is_the_frame nearest_resize grey_blur
           (Globals 0 true six_backgrounds) tiny_frame
           [[[10; 20; 30]; [40; 50; 60]]] ones_results 0%nat 1%nat 2%nat 60);
    reflexivity.
Defined.

(** ** Mask processor *)

Lemma Qmin_either (x y : Q) : Qmin x y = x \/ Qmin x y = y.
Proof. unfold Qmin, GenericMinMax.gmin. destruct (x ?= y)%Q; auto. Qed.

Lemma foldr_Qmin_in (w : Q) (ws : list Q) : In (foldr Qmin w ws) (w :: ws).
Proof.
  induction ws as [|a ws IH]; simpl; [auto|].
  destruct (Qmin_either a (foldr Qmin w ws)) as [->| ->]; [auto|].
  destruct IH as [IH|IH]; auto.
Qed.

Lemma foldr_Qmin_le (w : Q) (ws : list Q) (u : Q) :
  In u (w :: ws) -> (foldr Qmin w ws <= u)%Q.
Proof.
  induction ws as [|a ws IH]; simpl.
  - intros [<-|[]]. apply Qle_refl.
  - intros [<-|[<-|Hu]].
    + eapply Qle_trans; [apply Q.le_min_r|]. apply IH. left. reflexivity.
    + apply Q.le_min_l.
    + eapply Qle_trans; [apply Q.le_min_r|]. apply IH. right. exact Hu.
Qed.

Lemma lookup_erode_7x7 (m : mask) (y x : nat) (erow : list Q) (e : Q) :
  erode m (np_ones 7 7) 1 !! y = Some erow -> erow !! x = Some e ->
  exists row v, m !! y = Some row /\ row !! x = Some v /\
                e = erode_at m (np_ones 7 7) y x v.
Proof.
  unfold erode, erode_once. simpl Nat.iter. rewrite list_lookup_imap.
  intros (row & Hrow & ->)%fmap_Some. rewrite list_lookup_imap.
  intros (v & Hv & ->)%fmap_Some. eauto.
Qed.

(** X6. One pass of erosion with the 7 x 7 element puts at every position
    the least mask value found at most three rows and three columns away
    inside the mask: that value occurs there, and none there is smaller.  In
    particular no value grows. *)
Theorem erode_is_neighbourhood_minimum (m : mask) (y x : nat) (erow : list Q) (e : Q)
    (Hrow : erode m (np_ones 7 7) 1 !! y = Some erow)
    (He : erow !! x = Some e) :
  (exists dy dx : Z, -3 <= dy <= 3 /\ -3 <= dx <= 3 /\
     at2 m (Z.of_nat y + dy) (Z.of_nat x + dx) = Some e) /\
  (forall (dy dx : Z) (u : Q), -3 <= dy <= 3 -> -3 <= dx <= 3 ->
     at2 m (Z.of_nat y + dy) (Z.of_nat x + dx) = Some u -> (e <= u)%Q).
Proof.
  destruct (lookup_erode_7x7 m y x erow e Hrow He) as (row & v & Hmrow & Hv & ->).
  pose proof (centre_in_window m y x row v Hmrow Hv) as Hcentre.
  unfold erode_at.
  destruct (window m (np_ones 7 7) y x) as [|w ws] eqn:E; [destruct Hcentre|].
  split.
  - apply in_window_7x7. rewrite E. apply foldr_Qmin_in.
  - intros dy dx u Hdy Hdx Hu. apply foldr_Qmin_le. rewrite <- E.
    apply in_window_7x7. eauto.
Qed.

Lemma pixel_mask_condition_cases (m : mask) (y x c : nat) :
  pixel (mask_condition m) y x c =
    match m !! y with
    | Some row =>
        match row !! x with
        | Some v =>
            if (c <? 3)%nat
            then Some (negb (Qle_bool (erode_at m (np_ones 7 7) y x v)
                                      (float32 SEGMENTATION_THRESHOLD)))
            else None
        | None => None
        end
    | None => None
    end.
Proof.
  destruct (m !! y) as [row|] eqn:Hrow.
  - destruct (row !! x) as [v|] eqn:Hv.
    + destruct (Nat.ltb_spec c 3) as [Hc|Hc].
      * apply (pixel_mask_condition m y x c row v Hrow Hv Hc).
      * unfold pixel, mask_condition, gt, np_stack3, erode, erode_once. simpl Nat.iter.
        cbv zeta.
        rewrite !list_lookup_fmap, list_lookup_imap, Hrow. simpl.
        rewrite !list_lookup_fmap, list_lookup_imap, Hv. simpl.
        destruct c as [|[|[|c]]]; [lia | lia | lia | reflexivity].
    + unfold pixel, mask_condition, gt, np_stack3, erode, erode_once. simpl Nat.iter.
      cbv zeta.
      rewrite !list_lookup_fmap, list_lookup_imap, Hrow. simpl.
      rewrite !list_lookup_fmap, list_lookup_imap, Hv. reflexivity.
  - unfold pixel, mask_condition, gt, np_stack3, erode, erode_once. simpl Nat.iter.
    cbv zeta.
    rewrite !list_lookup_fmap, list_lookup_imap, Hrow. reflexivity.
Qed.

(** X7. The condition has an element exactly at the positions of the mask,
    in three channels; and where it is true the mask value at that very
    position was above 0.1, so erosion only ever takes positions away from
    the foreground. *)
Theorem condition_support_and_shrink (m : mask) (y x c : nat) :
  (is_Some (pixel (mask_condition m) y x c) <->
     (exists row v, m !! y = Some row /\ row !! x = Some v) /\ (c < 3)%nat) /\
  (pixel (mask_condition m) y x c = Some true ->
     exists row v, m !! y = Some row /\ row !! x = Some v /\ (1 # 10 < v)%Q).
Proof.
  rewrite pixel_mask_condition_cases. split.
  - destruct (m !! y) as [row|] eqn:Hrow.
    + destruct (row !! x) as [v|] eqn:Hv.
      * destruct (Nat.ltb_spec c 3) as [Hc|Hc]; split.
        -- intros _. split; [exists row, v; auto | exact Hc].
        -- intros _. eexists. reflexivity.
        -- intros [? [=]].
        -- intros [_ ?]. lia.
      * split; [intros [? [=]] | intros [(r & v & [= <-] & Hr) _]; congruence].
    + split; [intros [? [=]] | intros [(r & v & [=] & _) _]].
  - destruct (m !! y) as [row|] eqn:Hrow; [|discriminate].
    destruct (row !! x) as [v|] eqn:Hv; [|discriminate].
    destruct (c <? 3)%nat; [|discriminate]. intros [= Ht].
    exists row, v. split; [reflexivity|]. split; [exact Hv|].
    apply above_threshold in Ht.
    apply (erode_at_above _ m y x row v Hrow Hv) in Ht.
    apply (Qlt_trans _ (13421773 # 134217728)); [reflexivity|].
    specialize (Ht 0 0 v). apply Ht; try lia.
    unfold at2, lookupZ.
    replace (Z.of_nat y + 0 <? 0) with false by (symmetry; apply Z.ltb_ge; lia).
    replace (Z.of_nat x + 0 <? 0) with false by (symmetry; apply Z.ltb_ge; lia).
    rewrite !Z.add_0_r, !Nat2Z.id, Hrow. exact Hv.
Qed.

Lemma erode_is_neighbourhood_minimum_witness :
  exists dy dx : Z, -3 <= dy <= 3 /\ -3 <= dx <= 3 /\
    at2 [[1; 1; 1; 1; 1 # 2]%Q] (Z.of_nat 0 + dy) (Z.of_nat 1 + dx) = Some (1 # 2)%Q.
Proof.
  apply (erode_is_neighbourhood_minimum [[1; 1; 1; 1; 1 # 2]%Q] 0 1
           [1; 1 # 2; 1 # 2; 1 # 2; 1 # 2]%Q (1 # 2)%Q); reflexivity.
Defined.

Lemma condition_support_and_shrink_witness :
  exists row v, [[1; 1; 1; 1; 1 # 2]%Q] !! 0%nat = Some row /\
                row !! 1%nat = Some v /\ (1 # 10 < v)%Q.
Proof.
  apply (condition_support_and_shrink [[1; 1; 1; 1; 1 # 2]%Q] 0 1 2). reflexivity.
Defined.

(** ** Shapes *)

Lemma zip3_with_length {A B C D} (f : A -> B -> C -> D) l1 l2 l3 (n : nat) :
  length l1 = n -> length l2 = n -> length l3 = n ->
  length (zip3_with f l1 l2 l3) = n.
Proof.
  intros H1 H2 H3. unfold zip3_with. rewrite length_zip_with, length_zip. lia.
Qed.

Lemma elem_of_zip3_with {A B C D} (f : A -> B -> C -> D) l1 l2 l3 (d : D) :
  d ∈ zip3_with f l1 l2 l3 ->
  exists a b c, a ∈ l1 /\ b ∈ l2 /\ c ∈ l3 /\ d = f a b c.
Proof.
  intros (i & Hi)%list_elem_of_lookup. rewrite lookup_zip3_with in Hi.
  destruct (l1 !! i) as [a|] eqn:H1; [|discriminate].
  destruct (l2 !! i) as [b|] eqn:H2; [|discriminate].
  destruct (l3 !! i) as [c|] eqn:H3; [|discriminate].
  injection Hi as <-. exists a, b, c.
  repeat split; try reflexivity; eapply list_elem_of_lookup_2; eassumption.
Qed.

Lemma has_shape_np_where (cond : list (list (list bool)))
    (a b : list (list (list Z))) (h w c : nat) :
  has_shape cond h w c -> has_shape a h w c -> has_shape b h w c ->
  has_shape (np_where cond a b) h w c.
Proof.
  intros [Hc1 Hc2] [Ha1 Ha2] [Hb1 Hb2]. unfold np_where. split.
  - apply zip3_with_length; assumption.
  - intros row (cr & ar & br & Hcr & Har & Hbr & ->)%elem_of_zip3_with.
    destruct (Hc2 _ Hcr) as [Hcw Hcp], (Ha2 _ Har) as [Haw Hap],
             (Hb2 _ Hbr) as [Hbw Hbp].
    split.
    + apply zip3_with_length; assumption.
    + intros px (cp & ap & bp & Hcp' & Hap' & Hbp' & ->)%elem_of_zip3_with.
      apply zip3_with_length; auto.
Qed.

Lemma has_shape_mask_condition (m : mask) (h w : nat) :
  mask_shape m h w -> has_shape (mask_condition m) h w 3.
Proof.
  intros [Hh Hw]. unfold mask_condition, gt, np_stack3, erode, erode_once.
  simpl Nat.iter. split.
  - rewrite !length_fmap, length_imap. exact Hh.
  - intros row (r1 & -> & (r2 & -> & Hr2)%list_elem_of_fmap)%list_elem_of_fmap.
    apply elem_of_lookup_imap in Hr2 as (y & mrow & -> & Hy).
    split.
    + rewrite !length_fmap, length_imap. eapply Hw, list_elem_of_lookup_2, Hy.
    + intros px (p1 & -> & (v & -> & _)%list_elem_of_fmap)%list_elem_of_fmap.
      reflexivity.
Qed.

Section ShapeFacts.
Variable resize : bgr_image -> nat * nat -> bgr_image.
Variable GaussianBlur : bgr_image -> nat * nat -> Z -> bgr_image.

(** X8. For a frame of shape [(h, w, 3)] with a mask of shape [(h, w)], a
    blur that keeps that shape, and a resize that delivers the size it is
    asked for on the stored backgrounds, whatever the compositor returns has
    the shape of the frame. *)
Theorem output_has_frame_shape (g : globals) (image out : bgr_image)
    (results : segmentation_results) (h w : nat)
    (Himage : has_shape image h w 3)
    (Hmask : mask_shape (segmentation_mask results) h w)
    (Hblur : forall src, has_shape src h w 3 ->
                         has_shape (GaussianBlur src (55%nat, 55%nat) 0) h w 3)
    (Hresize : forall bg, Some bg ∈ background_images g ->
                          has_shape (resize bg (shape1 image, shape0 image)) h w 3)
    (Hout : apply_effects resize GaussianBlur g image results = Ok out) :
  has_shape out h w 3.
Proof.
  pose proof (has_shape_mask_condition _ _ _ Hmask) as Hcond.
  revert Hout. unfold apply_effects.
  fold (mask_condition (segmentation_mask results)).
  destruct ((selected_bg_index g >=? 0) &&
            (selected_bg_index g <? len (background_images g))) eqn:E.
  - assert (0 <= selected_bg_index g < len (background_images g)) as Hsel by lia.
    destruct (py_index_in_range _ _ Hsel) as (a & Ha & ->).
    destruct a as [bg|]; [|discriminate]. intros [= <-].
    apply list_elem_of_lookup_2, Hresize in Ha.
    apply has_shape_np_where; try assumption.
    destruct (apply_blur g); auto.
  - destruct (apply_blur g); intros [= <-]; [|exact Himage].
    apply has_shape_np_where; auto.
Qed.
End ShapeFacts.

Lemma output_has_frame_shape_witness :
  has_shape [[[128; 128; 128]; [128; 128; 128]]] 1 2 3.
Proof.
  apply (output_has_frame_shape nearest_resize grey_blur
           (Globals 0 true six_backgrounds) tiny_frame
           [[[128; 128; 128]; [128; 128; 128]]]
           (SegmentationResults [[1%Q; 1 # 20]]) 1 2).
  - split; [reflexivity|].
    intros row ->%list_elem_of_singleton. split; [reflexivity|].
    intros px Hpx. apply elem_of_cons in Hpx as [->|Hpx]; [reflexivity|].
    apply list_elem_of_singleton in Hpx as ->. reflexivity.
  - split; [reflexivity|]. intros row ->%list_elem_of_singleton. reflexivity.
  - intros src [Hh Hrows]. unfold grey_blur. split.
    + rewrite length_fmap. exact Hh.
    + intros row (r & -> & Hr)%list_elem_of_fmap. split.
      * rewrite length_fmap. apply (Hrows r Hr).
      * intros px (p & -> & _)%list_elem_of_fmap. reflexivity.
  - intros bg Hbg. unfold six_backgrounds in Hbg.
    apply elem_of_replicate in Hbg as [[= ->] _].
    split; [reflexivity|].
    intros row ->%list_elem_of_singleton. split; [reflexivity|].
    intros px Hpx. apply elem_of_cons in Hpx as [->|Hpx]; [reflexivity|].
    apply list_elem_of_singleton in Hpx as ->. reflexivity.
  - reflexivity.
Defined.

(** ** Background store *)

Lemma foldl_insert_length {A} (f : nat -> A) (ys : list nat) (l : list A) :
  length (foldl (fun acc y => <[y := f y]> acc) l ys) = length l.
Proof.
  revert l. induction ys as [|y ys IH]; intros l; simpl; [reflexivity|].
  rewrite IH. apply length_insert.
Qed.

Lemma foldl_insert_seq {A} (f : nat -> A) (k : nat) (l : list A) (y : nat) :
  (k <= length l)%nat -> (y < k)%nat ->
  foldl (fun acc y => <[y := f y]> acc) l (seq 0 k) !! y = Some (f y).
Proof.
  induction k as [|k IH]; intros Hk Hy; [lia|].
  rewrite seq_S, foldl_app. simpl.
  destruct (decide (y = k)) as [->|Hne].
  - apply list_lookup_insert_eq. rewrite foldl_insert_length. lia.
  - rewrite list_lookup_insert_ne by congruence. apply IH; lia.
Qed.

Lemma img_path_not_folder (i : nat) :
  img_path i <> BACKGROUND_FOLDER /\ img_path i <> "static".
Proof. unfold img_path, BACKGROUND_FOLDER. simpl. split; discriminate. Qed.

Lemma makedirs_ok (may_create : bool) (fs fs' : filesystem) :
  makedirs may_create fs = Ok fs' ->
  fs' = <[BACKGROUND_FOLDER := Directory]> (<["static" := Directory]> fs) /\
  path_exists fs BACKGROUND_FOLDER = false /\
  may_create = true /\
  forall decoded, fs !! "static" <> Some (File decoded).
Proof.
  unfold makedirs. destruct (path_exists fs BACKGROUND_FOLDER); [discriminate|].
  destruct (fs !! "static") as [[|d]|]; try discriminate;
    destruct may_create; try discriminate; intros [= <-]; repeat split;
    intros decoded; discriminate.
Qed.

Lemma lookup_makedirs (may_create : bool) (fs fs' : filesystem) (i : nat) :
  makedirs may_create fs = Ok fs' -> fs' !! img_path i = fs !! img_path i.
Proof.
  intros (-> & _)%makedirs_ok. destruct (img_path_not_folder i) as [H1 H2].
  rewrite !lookup_insert_ne by congruence. reflexivity.
Qed.

Lemma path_exists_makedirs (may_create : bool) (fs fs' : filesystem) :
  makedirs may_create fs = Ok fs' -> path_exists fs' BACKGROUND_FOLDER = true.
Proof.
  intros (-> & _)%makedirs_ok. unfold path_exists. rewrite lookup_insert_eq.
  apply bool_decide_eq_true_2. eauto.
Qed.

Section BackgroundStoreMore.
Variable putText : bgr_image -> string -> Z * Z -> Z -> Z -> Z * Z * Z -> Z -> bgr_image.
Variable may_create : bool.

(** X9. Every placeholder is the same 480-row gradient with only the label
    drawn on it differing: row [y] of what [cv2.putText] receives is 640
    copies of (128, 255*(480-y)/480, 255*y/480) in integer arithmetic, and
    these values fit a byte. *)
Theorem placeholder_gradient_rows (bg_number y : nat) (Hy : (y < 480)%nat) :
  create_placeholder_background putText bg_number =
    putText placeholder_gradient ("BG " +:+ pretty bg_number) (250, 250)
            FONT_HERSHEY_PLAIN 2 (255, 255, 255) 2 /\
  length placeholder_gradient = 480%nat /\
  placeholder_gradient !! y =
    Some (replicate 640 [128; 255 * (480 - Z.of_nat y) / 480; 255 * Z.of_nat y / 480]) /\
  0 <= 255 * (480 - Z.of_nat y) / 480 <= 255 /\
  0 <= 255 * Z.of_nat y / 480 < 255.
Proof.
  split; [reflexivity|]. split; [|split].
  - unfold placeholder_gradient.
    rewrite (foldl_insert_length
               (fun y => replicate 640
                  [128; 255 * (480 - Z.of_nat y) / 480; 255 * Z.of_nat y / 480])).
    unfold np_zeros. apply length_replicate.
  - unfold placeholder_gradient.
    apply (foldl_insert_seq
             (fun y => replicate 640
                [128; 255 * (480 - Z.of_nat y) / 480; 255 * Z.of_nat y / 480])).
    + unfold np_zeros. rewrite length_replicate. lia.
    + exact Hy.
  - split; split.
    + apply Z.div_pos; lia.
    + apply Z.div_le_upper_bound; lia.
    + apply Z.div_pos; lia.
    + apply Z.div_lt_upper_bound; lia.
Qed.

Lemma load_slot_cases (fs : filesystem) (i : nat) :
  load_slot putText fs i =
    match fs !! img_path i with
    | None => Some (create_placeholder_background putText i)
    | Some (File decoded) => decoded
    | Some Directory => None
    end.
Proof.
  unfold load_slot, path_exists, imread.
  destruct (fs !! img_path i) as [[|d]|].
  - rewrite bool_decide_eq_true_2 by eauto. reflexivity.
  - rewrite bool_decide_eq_true_2 by eauto. reflexivity.
  - rewrite bool_decide_eq_false_2; [reflexivity|]. intros [? [=]].
Qed.

Lemma load_slot_after_load (fs fs' : filesystem) (g g' : globals) (i : nat) :
  load_backgrounds putText may_create fs g = Ok (fs', g') ->
  load_slot putText fs' i = load_slot putText fs i.
Proof.
  intros [_ Hfs]%load_backgrounds_ok. rewrite !load_slot_cases.
  destruct (path_exists fs BACKGROUND_FOLDER); [subst; reflexivity|].
  rewrite (lookup_makedirs _ _ _ i Hfs). reflexivity.
Qed.

Lemma load_backgrounds_folder (fs fs' : filesystem) (g g' : globals) :
  load_backgrounds putText may_create fs g = Ok (fs', g') ->
  path_exists fs' BACKGROUND_FOLDER = true.
Proof.
  intros [_ Hfs]%load_backgrounds_ok.
  destruct (path_exists fs BACKGROUND_FOLDER) eqn:E; [subst; exact E|].
  exact (path_exists_makedirs _ _ _ Hfs).
Qed.

(** X10. A run of [load_backgrounds] that does not raise gives six
    entries, in the order of the file numbers 1..6, and entry [k] depends
    only on what is at [k+1.png]: the placeholder number [k+1] when nothing
    is there, the decoder's result when a file is there ([None] when it does
    not decode), [None] when it is a directory.  The selected index and the
    blur flag are not touched. *)
Theorem load_backgrounds_entries (fs fs' : filesystem) (g g' : globals) (k : nat)
    (Hload : load_backgrounds putText may_create fs g = Ok (fs', g'))
    (Hk : (k < 6)%nat) :
  length (background_images g') = 6%nat /\
  background_images g' !! k =
    Some match fs !! img_path (S k) with
         | None => Some (create_placeholder_background putText (S k))
         | Some (File decoded) => decoded
         | Some Directory => None
         end /\
  selected_bg_index g' = selected_bg_index g /\
  apply_blur g' = apply_blur g.
Proof.
  pose proof (load_slot_after_load fs fs' g g' (S k) Hload) as Hslot.
  destruct (load_backgrounds_ok _ _ _ _ _ _ Hload) as [-> _].
  split; [apply load_images_length|]. split; [|split; reflexivity].
  rewrite load_images_images, list_lookup_fmap.
  rewrite lookup_seq_lt by (unfold NUM_BACKGROUNDS; lia).
  cbn [fmap option_fmap option_map Nat.add].
  rewrite Hslot, load_slot_cases. reflexivity.
Qed.

(** X11. On the file system, a run of [load_backgrounds] that does not
    raise makes sure the backgrounds folder is there and does nothing else:
    apart from the folder and its parent every path is as before, so no image
    file appears or changes (the placeholders are not written out), and a
    file system that already has the folder is left exactly as it was. *)
Theorem load_backgrounds_filesystem (fs fs' : filesystem) (g g' : globals)
    (Hload : load_backgrounds putText may_create fs g = Ok (fs', g')) :
  path_exists fs' BACKGROUND_FOLDER = true /\
  (forall p, p <> BACKGROUND_FOLDER -> p <> "static" -> fs' !! p = fs !! p) /\
  (forall i, fs' !! img_path i = fs !! img_path i) /\
  (path_exists fs BACKGROUND_FOLDER = true -> fs' = fs).
Proof.
  split; [exact (load_backgrounds_folder _ _ _ _ Hload)|].
  destruct (load_backgrounds_ok _ _ _ _ _ _ Hload) as [_ Hfs].
  destruct (path_exists fs BACKGROUND_FOLDER) eqn:E.
  - subst. auto.
  - split; [|split; [|discriminate]].
    + intros p H1 H2. apply makedirs_ok in Hfs as (-> & _).
      rewrite !lookup_insert_ne by congruence. reflexivity.
    + intros i. exact (lookup_makedirs _ _ _ i Hfs).
Qed.

(** X12. Loading again right after a load that did not raise changes
    nothing: the same file system and the same globals come back. *)
Theorem load_backgrounds_twice (fs fs' : filesystem) (g g' : globals)
    (Hload : load_backgrounds putText may_create fs g = Ok (fs', g')) :
  load_backgrounds putText may_create fs' g' = Ok (fs', g').
Proof.
  rewrite (load_backgrounds_existing _ _ _ _ (load_backgrounds_folder _ _ _ _ Hload)).
  destruct (load_backgrounds_ok _ _ _ _ _ _ Hload) as [-> _]. reflexivity.
Qed.

End BackgroundStoreMore.

Lemma placeholder_gradient_rows_witness :
  placeholder_gradient !! 240%nat = Some (replicate 640 [128; 127; 127]).
Proof. apply (placeholder_gradient_rows blank_putText 3 240). lia. Defined.

Lemma second_file_only_loads (may_create : bool) :
  load_backgrounds blank_putText may_create second_file_only module_globals =
    Ok (second_file_only, load_images blank_putText second_file_only module_globals).
Proof. apply load_backgrounds_existing. vm_compute. reflexivity. Qed.

Lemma load_backgrounds_entries_witness :
  background_images (load_images blank_putText second_file_only module_globals)
    !! 1%nat = Some (Some one_pixel_background).
Proof.
  destruct (load_backgrounds_entries blank_putText true second_file_only
              second_file_only module_globals
              (load_images blank_putText second_file_only module_globals) 1)
    as (_ & H & _); [apply second_file_only_loads | lia |].
  rewrite H. vm_compute. reflexivity.
Defined.

Lemma load_backgrounds_filesystem_witness :
  path_exists (<[BACKGROUND_FOLDER := Directory]> (<["static" := Directory]> ∅))
              BACKGROUND_FOLDER = true.
Proof.
  apply (load_backgrounds_filesystem blank_putText true ∅
           (<[BACKGROUND_FOLDER := Directory]> (<["static" := Directory]> ∅))
           module_globals
           (load_images blank_putText
              (<[BACKGROUND_FOLDER := Directory]> (<["static" := Directory]> ∅))
              module_globals)).
  reflexivity.
Defined.

Lemma load_backgrounds_twice_witness :
  load_backgrounds blank_putText true second_file_only
    (load_images blank_putText second_file_only module_globals) =
  Ok (second_file_only, load_images blank_putText second_file_only module_globals).
Proof.
  apply (load_backgrounds_twice blank_putText true second_file_only second_file_only
           module_globals).
  apply second_file_only_loads.
Defined.


(** ** From the files to the compositor *)

Lemma apply_effects_ok_on_images
    (resize : bgr_image -> nat * nat -> bgr_image)
    (GaussianBlur : bgr_image -> nat * nat -> Z -> bgr_image)
    (g : globals) (image : bgr_image) (results : segmentation_results) :
  (forall o, o ∈ background_images g -> is_Some o) ->
  exists out, apply_effects resize GaussianBlur g image results = Ok out.
Proof.
  intros Himages. unfold apply_effects.
  destruct ((selected_bg_index g >=? 0) &&
            (selected_bg_index g <? len (background_images g))) eqn:E.
  - assert (0 <= selected_bg_index g < len (background_images g)) as Hsel by lia.
    destruct (py_index_in_range _ _ Hsel) as (a & Ha & ->).
    apply list_elem_of_lookup_2, Himages in Ha as [bg ->]. eauto.
  - destruct (apply_blur g); eauto.
Qed.

(** X13. If every file that exists under the names [1.png] .. [6.png]
    decodes, then after a start-up that did not raise and any sequence of
    requests the compositor returns a frame for every camera frame and mask:
    with the OpenCV and NumPy calls taken as total, its own code cannot
    fail. *)
Theorem decodable_files_compositor_total
    (int : string -> option Z)
    (putText : bgr_image -> string -> Z * Z -> Z -> Z -> Z * Z * Z -> Z -> bgr_image)
    (may_create : bool)
    (resize : bgr_image -> nat * nat -> bgr_image)
    (GaussianBlur : bgr_image -> nat * nat -> Z -> bgr_image)
    (fs fs' : filesystem) (g0 : globals) (rs : list request)
    (Hfiles : forall i e, (1 <= i <= 6)%nat -> fs !! img_path i = Some e ->
                          exists img, e = File (Some img))
    (Hload : load_backgrounds putText may_create fs module_globals = Ok (fs', g0)) :
  Forall (fun g => forall image results,
            exists out, apply_effects resize GaussianBlur g image results = Ok out)
         (states int rs g0).
Proof.
  eapply Forall_impl; [apply states_background_images|].
  intros g Hg image results. cbv beta in Hg.
  apply apply_effects_ok_on_images. rewrite Hg.
  destruct (load_backgrounds_ok _ _ _ _ _ _ Hload) as [Hg0 _].
  rewrite Hg0, load_images_images.
  intros o (i & -> & Hi%elem_of_seq)%list_elem_of_fmap.
  rewrite (load_slot_after_load _ _ _ _ _ _ i Hload), load_slot_cases.
  destruct (fs !! img_path i) as [e|] eqn:E; [|eauto].
  destruct (Hfiles i e) as [img ->]; [unfold NUM_BACKGROUNDS in Hi; lia | exact E |].
  eauto.
Qed.

Lemma decodable_files_compositor_total_witness :
  Forall (fun g => forall image results,
            exists out, apply_effects nearest_resize grey_blur g image results = Ok out)
         (states py_int [GetSetBackground "1"; GetToggleBlur 1]
            (load_images blank_putText second_file_only module_globals)).
Proof.
  apply (decodable_files_compositor_total py_int blank_putText true nearest_resize
           grey_blur second_file_only second_file_only).
  - intros i e _ H. unfold second_file_only in H.
    apply lookup_insert_Some in H as [[_ <-]|[_ H]]; [eauto|].
    destruct (img_path_not_folder i) as [H1 H2].
    rewrite lookup_insert_ne in H by (intros Heq; apply H1; symmetry; exact Heq).
    rewrite lookup_insert_ne in H by (intros Heq; apply H2; symmetry; exact Heq).
    rewrite lookup_empty in H. discriminate H.
  - apply second_file_only_loads.
Defined.

(** ** Frame pipeline *)

Lemma cvtColor_round_trip (image : bgr_image) (code code' : color_code) :
  cvtColor (cvtColor image code) code' = image.
Proof.
  unfold cvtColor. rewrite List.map_map.
  rewrite <- (List.map_id image) at 2. apply List.map_ext. intros row.
  rewrite List.map_map. rewrite <- (List.map_id row) at 2.
  apply List.map_ext. intros px. apply reverse_involutive.
Qed.

Section PipelineMore.
Variable resize : bgr_image -> nat * nat -> bgr_image.
Variable GaussianBlur : bgr_image -> nat * nat -> Z -> bgr_image.

Lemma while_loop_events (script : list iteration) :
  forall evs c,
    while_loop resize GaussianBlur script = Some (evs, c) ->
    Forall loop_event evs /\ (length evs <= length script)%nat.
Proof.
  induction script as [|it script IH]; intros evs c; simpl; [discriminate|].
  destruct (isOpened it); simpl;
    [|intros [= <- <-]; split; [constructor | simpl; lia]].
  destruct (read it) as [image|].
  2: { intros [= <- <-]. split; [|simpl; lia].
       constructor; [left; reflexivity | constructor]. }
  destruct (process it _) as [results|e];
    [|intros [= <- <-]; split; [constructor | simpl; lia]].
  destruct (apply_effects _ _ _ _ _) as [out|e];
    [|intros [= <- <-]; split; [constructor | simpl; lia]].
  destruct (imencode it _ _) as [[ret [frame|]]|e]; simpl;
    [|intros [= <- <-]; split; [constructor | simpl; lia]
     |intros [= <- <-]; split; [constructor | simpl; lia]].
  destruct (consumer_step it).
  - destruct (while_loop resize GaussianBlur script) as [[evs' c']|]; [|discriminate].
    intros [= <- <-]. destruct (IH evs' c' eq_refl) as [Hall Hlen].
    split; [|simpl; lia]. constructor; [right; eauto | exact Hall].
  - intros [= <- <-]. split; [|simpl; lia].
    constructor; [right; eauto | constructor].
Qed.

(** X14. Every run of the generator that comes to an end has this trace:
    the camera is opened, the segmentation context is entered, then come only
    chunks in multipart framing and possibly the warning of a failed read (at
    most one event per turn of the loop), then the segmentation context is
    left, whatever ended the run, and [cap.release()] follows exactly when
    the loop ended by itself. *)
Theorem gen_frames_trace (script : list iteration) (evs : list event) (c : completion)
    (Hrun : gen_frames resize GaussianBlur script = Some (evs, c)) :
  exists body,
    evs = VideoCapture 0 :: SegmentationEnter :: body ++
          SegmentationExit :: match c with Normal => [CapRelease] | _ => [] end /\
    Forall loop_event body /\
    (length body <= length script)%nat /\
    releases evs = match c with Normal => 1%nat | _ => 0%nat end.
Proof.
  pose proof (gen_frames_releases resize GaussianBlur script evs c Hrun) as Hrel.
  revert Hrun. unfold gen_frames, with_segmentation.
  destruct (while_loop resize GaussianBlur script) as [[body c']|] eqn:E; [|discriminate].
  destruct (while_loop_events script body c' E) as [Hall Hlen].
  destruct c'; simpl; intros [= <- <-]; exists body; repeat split; auto.
  rewrite <- app_assoc. reflexivity.
Qed.

(** X15. With nothing selected and blur off, a turn of the loop hands the
    encoder the captured frame mirrored left to right and otherwise
    untouched (the two colour conversions cancel), and yields the encoder's
    buffer in multipart framing. *)
Theorem passthrough_turn_encodes_mirror (it : iteration) (script : list iteration)
    (image : bgr_image) (results : segmentation_results) (ret : bool) (buffer : string)
    (Hopen : isOpened it = true)
    (Hread : read it = Some image)
    (Hsel : selected_bg_index (session it) = -1)
    (Hblur : apply_blur (session it) = false)
    (Hseg : process it (cvtColor (map (@reverse _) image) COLOR_BGR2RGB) = Ok results)
    (Henc : imencode it ".jpg" (map (@reverse _) image) = Ok (ret, NdArray buffer)) :
  while_loop resize GaussianBlur (it :: script) =
    match consumer_step it with
    | Close => Some ([Yielded (multipart buffer)], GeneratorExit)
    | Next => emit (Yielded (multipart buffer)) (while_loop resize GaussianBlur script)
    end.
Proof.
  simpl. rewrite Hopen, Hread. simpl.
  change (flip image 1) with (map (@reverse _) image).
  rewrite Hseg, cvtColor_round_trip.
  unfold apply_effects. rewrite Hsel, Hblur. simpl. rewrite Henc. reflexivity.
Qed.
End PipelineMore.

Lemma gen_frames_trace_witness :
  exists body,
    [VideoCapture 0; SegmentationEnter; Yielded (multipart "JPEG");
     SegmentationExit; CapRelease] =
      VideoCapture 0 :: SegmentationEnter :: body ++ [SegmentationExit; CapRelease] /\
    Forall loop_event body /\
    (length body <= 2)%nat /\
    releases [VideoCapture 0; SegmentationEnter; Yielded (multipart "JPEG");
              SegmentationExit; CapRelease] = 1%nat.
Proof.
  apply (gen_frames_trace nearest_resize grey_blur [good_turn Next; closed_turn]
           [VideoCapture 0; SegmentationEnter; Yielded (multipart "JPEG");
            SegmentationExit; CapRelease] Normal).
  reflexivity.
Defined.

Lemma passthrough_turn_encodes_mirror_witness :
  while_loop nearest_resize grey_blur [good_turn Close] =
    Some ([Yielded (multipart "JPEG")], GeneratorExit).
Proof.
  apply (passthrough_turn_encodes_mirror nearest_resize grey_blur (good_turn Close) []
           tiny_frame tiny_results true "JPEG"); reflexivity.
Defined.

(** ** Masks that are all foreground or all background *)

Lemma zip3_with_select {A B} (f : A -> B -> B -> B) (r : A) (n : nat)
    (l2 l3 : list B) (first : bool) :
  length l2 = n -> length l3 = n ->
  (forall a b, a ∈ l2 -> b ∈ l3 -> f r a b = if first then a else b) ->
  zip3_with f (replicate n r) l2 l3 = if first then l2 else l3.
Proof.
  intros H2 H3 Hf. apply list_eq. intros i. rewrite lookup_zip3_with.
  destruct (decide (i < n)%nat) as [Hi|Hi].
  - rewrite (lookup_replicate_2 n r i Hi).
    destruct (lookup_lt_is_Some_2 l2 i) as [a Ha]; [lia|].
    destruct (lookup_lt_is_Some_2 l3 i) as [b Hb]; [lia|].
    rewrite Ha, Hb, Hf by (eapply list_elem_of_lookup_2; eassumption).
    destruct first; symmetry; assumption.
  - rewrite (proj1 (lookup_replicate_None n r i)) by lia.
    destruct first; symmetry; apply lookup_ge_None; lia.
Qed.

Lemma np_where_uniform (t : bool) (a b : list (list (list Z))) (h w : nat) :
  has_shape a h w 3 -> has_shape b h w 3 ->
  np_where (replicate h (replicate w (replicate 3 t))) a b = if t then a else b.
Proof.
  intros [Ha1 Ha2] [Hb1 Hb2]. unfold np_where.
  apply zip3_with_select; [assumption | assumption |].
  intros ar br Har Hbr.
  destruct (Ha2 _ Har) as [Haw Hap], (Hb2 _ Hbr) as [Hbw Hbp].
  apply zip3_with_select; [assumption | assumption |].
  intros ap bp Hap' Hbp'.
  apply zip3_with_select; [auto | auto |].
  intros u v _ _. reflexivity.
Qed.

Section UniformMasks.
Variable resize : bgr_image -> nat * nat -> bgr_image.
Variable GaussianBlur : bgr_image -> nat * nat -> Z -> bgr_image.

(** X16. When the mask says foreground everywhere (all ones, of the
    frame's height and width), whatever the compositor returns is the camera
    frame itself, for every selected index and blur setting. *)
Theorem all_foreground_output_is_frame (g : globals) (image out : bgr_image) (h w : nat)
    (Himage : has_shape image h w 3)
    (Hblur : forall src, has_shape src h w 3 ->
                         has_shape (GaussianBlur src (55%nat, 55%nat) 0) h w 3)
    (Hresize : forall bg, Some bg ∈ background_images g ->
                          has_shape (resize bg (shape1 image, shape0 image)) h w 3)
    (Hout : apply_effects resize GaussianBlur g image
              (SegmentationResults (replicate h (replicate w 1%Q))) = Ok out) :
  out = image.
Proof.
  revert Hout. unfold apply_effects.
  fold (mask_condition (segmentation_mask
          (SegmentationResults (replicate h (replicate w 1%Q))))).
  cbn [segmentation_mask]. rewrite mask_condition_replicate, one_is_foreground.
  destruct ((selected_bg_index g >=? 0) &&
            (selected_bg_index g <? len (background_images g))) eqn:E.
  - assert (0 <= selected_bg_index g < len (background_images g)) as Hsel by lia.
    destruct (py_index_in_range _ _ Hsel) as (a & Ha & ->).
    destruct a as [bg|]; [|discriminate]. intros [= <-].
    apply list_elem_of_lookup_2, Hresize in Ha.
    apply (np_where_uniform true); [assumption|].
    destruct (apply_blur g); auto.
  - destruct (apply_blur g); intros [= <-]; [|reflexivity].
    apply (np_where_uniform true); auto.
Qed.

(** X17. When the mask says background everywhere (all zeros, of the
    frame's height and width), nothing of the camera frame is left in a
    replaced or blurred output: with a stored background selected the output
    is that background resized (and blurred when blur is on), and without
    one and blur on it is the blurred frame. *)
Theorem no_foreground_output_is_backdrop (g : globals) (image out : bgr_image) (h w : nat)
    (Himage : has_shape image h w 3)
    (Hblur : forall src, has_shape src h w 3 ->
                         has_shape (GaussianBlur src (55%nat, 55%nat) 0) h w 3)
    (Hresize : forall bg, Some bg ∈ background_images g ->
                          has_shape (resize bg (shape1 image, shape0 image)) h w 3)
    (Hout : apply_effects resize GaussianBlur g image
              (SegmentationResults (replicate h (replicate w 0%Q))) = Ok out) :
  (0 <= selected_bg_index g < len (background_images g) ->
   exists bg,
     background_images g !! Z.to_nat (selected_bg_index g) = Some (Some bg) /\
     out = if apply_blur g
           then GaussianBlur (resize bg (shape1 image, shape0 image)) (55%nat, 55%nat) 0
           else resize bg (shape1 image, shape0 image)) /\
  (~ (0 <= selected_bg_index g < len (background_images g)) ->
   out = if apply_blur g then GaussianBlur image (55%nat, 55%nat) 0 else image).
Proof.
  revert Hout. unfold apply_effects.
  fold (mask_condition (segmentation_mask
          (SegmentationResults (replicate h (replicate w 0%Q))))).
  cbn [segmentation_mask]. rewrite mask_condition_replicate, zero_is_background.
  destruct ((selected_bg_index g >=? 0) &&
            (selected_bg_index g <? len (background_images g))) eqn:E.
  - assert (0 <= selected_bg_index g < len (background_images g)) as Hsel by lia.
    destruct (py_index_in_range _ _ Hsel) as (a & Ha & ->).
    destruct a as [bg|]; [|discriminate]. intros [= <-].
    split; [|intros Hbad; contradiction].
    intros _. exists bg. split; [exact Ha|].
    apply list_elem_of_lookup_2, Hresize in Ha.
    apply (np_where_uniform false); [assumption|].
    destruct (apply_blur g); auto.
  - split; [intros Hsel; lia|]. intros _. revert Hout.
    destruct (apply_blur g); intros [= <-]; [|reflexivity].
    apply (np_where_uniform false); auto.
Qed.
End UniformMasks.

Lemma tiny_frame_shape : has_shape tiny_frame 1 2 3.
Proof.
  split; [reflexivity|].
  intros row ->%list_elem_of_singleton. split; [reflexivity|].
  intros px Hpx. apply elem_of_cons in Hpx as [->|Hpx]; [reflexivity|].
  apply list_elem_of_singleton in Hpx as ->. reflexivity.
Qed.

Lemma grey_blur_shape (src : bgr_image) (ksize : nat * nat) (sigmaX : Z) (h w : nat) :
  has_shape src h w 3 -> has_shape (grey_blur src ksize sigmaX) h w 3.
Proof.
  intros [Hh Hrows]. unfold grey_blur. split.
  - rewrite length_fmap. exact Hh.
  - intros row (r & -> & Hr)%list_elem_of_fmap. split.
    + rewrite length_fmap. apply (Hrows r Hr).
    + intros px (p & -> & _)%list_elem_of_fmap. reflexivity.
Qed.

Lemma nearest_resize_six_backgrounds (bg : bgr_image) :
  Some bg ∈ six_backgrounds ->
  has_shape (nearest_resize bg (shape1 tiny_frame, shape0 tiny_frame)) 1 2 3.
Proof.
  unfold six_backgrounds. intros [[= ->] _]%elem_of_replicate.
  split; [reflexivity|].
  intros row ->%list_elem_of_singleton. split; [reflexivity|].
  intros px Hpx. apply elem_of_cons in Hpx as [->|Hpx]; [reflexivity|].
  apply list_elem_of_singleton in Hpx as ->. reflexivity.
Qed.

Lemma all_foreground_output_is_frame_witness :
  [[[10; 20; 30]; [40; 50; 60]]] = tiny_frame.
Proof.
  apply (all_foreground_output_is_frame nearest_resize grey_blur
           (Globals 0 true six_backgrounds) tiny_frame
           [[[10; 20; 30]; [40; 50; 60]]] 1 2).
  - apply tiny_frame_shape.
  - intros src. apply grey_blur_shape.
  - apply nearest_resize_six_backgrounds.
  - reflexivity.
Defined.

Lemma no_foreground_output_is_backdrop_witness :
  exists bg,
    six_backgrounds !! Z.to_nat 0 = Some (Some bg) /\
    [[[128; 128; 128]; [128; 128; 128]]] =
      grey_blur (nearest_resize bg (shape1 tiny_frame, shape0 tiny_frame))
                (55%nat, 55%nat) 0.
Proof.
  destruct (no_foreground_output_is_backdrop nearest_resize grey_blur
              (Globals 0 true six_backgrounds) tiny_frame
              [[[128; 128; 128]; [128; 128; 128]]] 1 2) as [Hsel _].
  - apply tiny_frame_shape.
  - intros src. apply grey_blur_shape.
  - apply nearest_resize_six_backgrounds.
  - reflexivity.
  - apply Hsel. unfold len. simpl. lia.
Defined.

(** ** Start-up and failures at concrete inputs *)

Lemma selected_index_invariant_witness :
  Forall (fun g =>
            index_ok g /\
            background_images g =
              background_images (load_images blank_putText second_file_only module_globals))
         (states py_int [GetSetBackground "1"; GetToggleBlur 1; GetIndex]
            (load_images blank_putText second_file_only module_globals)).
Proof.
  apply (selected_index_invariant py_int blank_putText true second_file_only
           second_file_only).
  apply second_file_only_loads.
Defined.


Example float32_one_third : (float32 (1 # 3) == 11184811 # 33554432)%Q.
Proof. vm_compute. reflexivity. Qed.

Example float32_ties_to_even :
  (float32 (16777217 # 1) == 16777216 # 1)%Q /\ (float32 (16777219 # 1) == 16777220 # 1)%Q.
Proof. split; vm_compute; reflexivity. Qed.

Example float64_tenth :
  (SEGMENTATION_THRESHOLD == 3602879701896397 # 36028797018963968)%Q.
Proof. vm_compute. reflexivity. Qed.

Example threshold_at_float32_tenth :
  mask_condition [[13421773 # 134217728]] = [[[false; false; false]]] /\
  mask_condition [[13421774 # 134217728]] = [[[true; true; true]]].
Proof. split; vm_compute; reflexivity. Qed.

Example py_int_separator_byte :
  py_int (String (ascii_of_nat 28) "1") = None.
Proof. reflexivity. Qed.
